(** * cursor_rules_setup.py: the rule emitter

    A shallow embedding of the script [cursor_rules_setup.py] and of the part
    of its environment it acts on (a POSIX file system seen through
    [os.makedirs], [open(..., "w")], [file.write] and [print]), followed by
    the properties of the emission.

    Conventions.
    - A Python [str] is a [string] holding its UTF-8 bytes; text files are
      written on a POSIX system, where ["\n"] is written as the single byte 10.
    - The dictionary [rules] is an association list in insertion order, the
      order in which [rules.items()] yields its entries.
    - A rule (the inner dictionary) is a record of the four keys the loop
      consults, each absent ([None]) or present; reading an absent key with
      [rule[key]] raises [KeyError].
    - A path is resolved to its list of components; the file system has no
      symbolic links, and a path string is relative to the current
      directory unless it starts with ["/"].
    - [os.makedirs] and [open] fail as the file system dictates (an entry in
      the way, a missing parent, a denied path); [file.write], closing the
      file and [print] do not fail.  An exception leaves the world as it is
      at that point and ends the run.
    - Where the failure of a write is the subject, the loop is run on a
      [device] ([script_dev]): [open] also fails for a name it does not
      take, [file.write] for text the encoding cannot express, and writing
      or closing for data the device refuses.  On a device that takes
      everything the two runs are the same ([script_dev_transparent]). *)

From Stdlib Require Import String Ascii List.
From stdpp Require Import gmap strings list fin_maps.

(** ** Strings and paths *)

(** The newline character, Python's ["\n"]. *)
Definition LF : string := String "010" "".

(** [sep.join(items)] *)
Definition str_join (sep : string) (items : list string) : string :=
  String.concat sep items.

Definition is_sep (c : ascii) : bool := Ascii.eqb c "/".

Definition startswith_sep (s : string) : bool :=
  match s with
  | String c _ => is_sep c
  | EmptyString => false
  end.

Fixpoint endswith_sep (s : string) : bool :=
  match s with
  | EmptyString => false
  | String c EmptyString => is_sep c
  | String _ s' => endswith_sep s'
  end.

(** [os.path.join(a, b)] of [posixpath]: an absolute [b] replaces [a]; a
    separator is inserted unless [a] is empty or already ends with one. *)
Definition os_path_join (a b : string) : string :=
  if startswith_sep b then b
  else if String.eqb a "" || endswith_sep a then a +:+ b
  else a +:+ "/" +:+ b.

(** The components of a path string, cut at every ["/"]. *)
Fixpoint split_sep (s : string) : list string :=
  match s with
  | EmptyString => [""]
  | String c s' =>
      if is_sep c then "" :: split_sep s'
      else match split_sep s' with
           | h :: t => String c h :: t
           | [] => [String c ""]
           end
  end.

(** A resolved path: the list of components from the current directory, or
    from the root when the first component is ["/"]. *)
Abbreviation path := (list string).

Definition real_component (c : string) : bool :=
  negb (String.eqb c "") && negb (String.eqb c ".").

(** Path resolution as the kernel does it for a path without symbolic links:
    empty components and ["."] are dropped.  [".."] is not interpreted. *)
Definition resolve (name : string) : path :=
  (if startswith_sep name then ["/"] else []) ++
  List.filter real_component (split_sep name).

Definition parent (p : path) : path := removelast p.

(** ** The world the script acts on *)

(** What the process did to its environment, in order. *)
Inductive event :=
  | Mkdir (p : path)
  | Open (p : path)
  | Write (p : path) (data : string)
  | Print (text : string).

Record world := World {
  dirs : gset path;            (* directories, besides the current one and the root *)
  files : gmap path string;    (* regular files and their content *)
  denied : gset path;          (* paths the process may neither create nor write *)
  trace : list event           (* effects performed so far, oldest first *)
}.

Definition is_dir (w : world) (p : path) : bool :=
  bool_decide (p = [] ∨ p = ["/"] ∨ p ∈ dirs w).

Definition is_file (w : world) (p : path) : bool :=
  bool_decide (is_Some (files w !! p)).

Definition exists_path (w : world) (p : path) : bool :=
  is_dir w p || is_file w p.

(** Text sent to standard output, one entry per [print]. *)
Definition stdout (w : world) : list string :=
  omap (λ e, match e with Print s => Some s | _ => None end) (trace w).

(** Files opened for writing, in order. *)
Definition opened (w : world) : list path :=
  omap (λ e, match e with Open p => Some p | _ => None end) (trace w).

(** ** Exceptions and the monad of the script *)

(** Error numbers for which Python has no subclass of [OSError]. *)
Inductive errno :=
  | ENAMETOOLONG
  | ENOSPC
  | EDQUOT
  | EFBIG
  | EIO.

Inductive oserror :=
  | FileExistsError
  | FileNotFoundError
  | NotADirectoryError
  | IsADirectoryError
  | PermissionError
  | PlainOSError (code : errno).

(** [OSError kind filename] is an [OSError] whose [filename] attribute is
    set, as the calls that take a path raise it; [OSErrorNoFilename] is one
    whose [filename] is [None], as writing to an open file raises it. *)
Inductive exn :=
  | KeyError (key : string)
  | OSError (kind : oserror) (filename : path)
  | OSErrorNoFilename (code : errno)
  | ValueError
  | UnicodeEncodeError.

Inductive res (A : Type) :=
  | Ok (a : A)
  | Raise (e : exn).
Arguments Ok {A} a.
Arguments Raise {A} e.

(** A statement runs in a world and leaves a world, whether it returns or
    raises. *)
Definition M (A : Type) : Type := world → world * res A.

Definition ret {A} (a : A) : M A := λ w, (w, Ok a).
Definition raise {A} (e : exn) : M A := λ w, (w, Raise e).
Definition bind {A B} (m : M A) (k : A → M B) : M B :=
  λ w, match m w with
       | (w', Ok a) => k a w'
       | (w', Raise e) => (w', Raise e)
       end.

Declare Scope py_scope.
Delimit Scope py_scope with py.
Notation "x <- m ;; k" := (bind m (λ x, k))
  (at level 100, m at next level, right associativity) : py_scope.
Notation "m ;; k" := (bind m (λ _, k))
  (at level 100, right associativity) : py_scope.
Open Scope py_scope.

Definition emit (e : event) : M unit :=
  λ w, (World (dirs w) (files w) (denied w) (trace w ++ [e]), Ok tt).


(** ** System calls *)

(** The errors common to creating or writing the entry [p]: its parent
    must be a directory and [p] must not be denied. *)
Definition check_create (p : path) : M unit :=
  λ w, if is_dir w (parent p)
       then if bool_decide (p ∈ denied w)
            then (w, Raise (OSError PermissionError p))
            else (w, Ok tt)
       else if is_file w (parent p)
            then (w, Raise (OSError NotADirectoryError p))
            else (w, Raise (OSError FileNotFoundError p)).

(** [os.mkdir(name)] *)
Definition mkdir (p : path) : M unit :=
  λ w, if exists_path w p then (w, Raise (OSError FileExistsError p))
       else (check_create p ;;
             λ w, (World ({[p]} ∪ dirs w) (files w) (denied w) (trace w ++ [Mkdir p]), Ok tt)) w.

(** [os.makedirs(name, exist_ok=True)], on the reversed components of
    [name]: the missing parent is made first, then the directory itself; an
    error of [mkdir] is swallowed when the directory is there. *)
Fixpoint makedirs_rev (rp : list string) : M unit :=
  match rp with
  | [] => ret tt
  | _ :: rhead =>
      (λ w, if negb (bool_decide (rhead = [])) && negb (exists_path w (rev rhead))
            then match makedirs_rev rhead w with
                 | (w', Raise (OSError FileExistsError _)) => (w', Ok tt)
                 | out => out
                 end
            else (w, Ok tt)) ;;
      (λ w, match mkdir (rev rp) w with
            | (w', Raise e) => if is_dir w' (rev rp) then (w', Ok tt) else (w', Raise e)
            | out => out
            end)
  end.

Definition makedirs (name : string) : M unit :=
  if String.eqb name "" then raise (OSError FileNotFoundError [])
  else makedirs_rev (rev (resolve name)).

(** [open(name, "w")]: creates the file or truncates it; the handle is the
    resolved path. *)
Definition open_w (name : string) : M path :=
  let p := resolve name in
  λ w, if is_dir w p || endswith_sep name then (w, Raise (OSError IsADirectoryError p))
       else (check_create p ;;
             (λ w, (World (dirs w) (<[p := ""]> (files w)) (denied w) (trace w ++ [Open p]), Ok p))) w.

(** [f.write(data)]: appends to the open file. *)
Definition f_write (f : path) (data : string) : M unit :=
  λ w, (World (dirs w) (<[f := default "" (files w !! f) +:+ data]> (files w)) (denied w)
              (trace w ++ [Write f data]), Ok tt).

(** [print(text)] *)
Definition print (text : string) : M unit := emit (Print (text +:+ LF)).

(** ** The script *)

(** A rule: the inner dictionary. *)
Record rule := Rule {
  rule_type : option string;
  file_patterns : option (list string);
  description : option string;
  content : option string
}.

(** [d[key]]: the value, or [KeyError]. *)
Definition getitem (key : string) (v : option string) : M string :=
  match v with
  | Some s => ret s
  | None => raise (KeyError key)
  end.

(** The body of the loop (lines 183-190) for one item of the table. *)
Definition write_rule (rules_dir : string) (filename : string) (rule : rule) : M unit :=
  let filepath := os_path_join rules_dir filename in
  f <- open_w filepath ;;
  t <- getitem "rule_type" (rule_type rule) ;;
  f_write f ("Rule Type: " +:+ t +:+ LF +:+ LF) ;;
  match file_patterns rule with
  | Some patterns => f_write f ("File Pattern Matches: " +:+ str_join ", " patterns +:+ LF +:+ LF)
  | None => ret tt
  end ;;
  match description rule with
  | Some d => f_write f ("Description: " +:+ d +:+ LF +:+ LF)
  | None => ret tt
  end ;;
  c <- getitem "content" (content rule) ;;
  f_write f c.

(** [for filename, rule in rules.items(): ...] *)
Fixpoint for_items (rules_dir : string) (items : list (string * rule)) : M unit :=
  match items with
  | [] => ret tt
  | (filename, rule) :: rest =>
      write_rule rules_dir filename rule ;; for_items rules_dir rest
  end.

(** The module body, as a function of its two constants. *)
Definition script (rules_dir : string) (rules : list (string * rule)) : M unit :=
  makedirs rules_dir ;;
  for_items rules_dir rules ;;
  print ("✅ Successfully created rule files in " +:+ rules_dir).

(** ** The script where opening, writing and closing can fail *)

(** In the definitions above [open] fails for what is in the way in the
    file system, and the text of every [f.write] is in the file at once.
    The three steps of the [with] statement have other ways to fail: a
    name that [open] does not take, text that the encoding of the file
    cannot express, and a device that does not take the data.  The data
    reach the device when the file object passes on the text it holds, at
    the latest when the [with] block is left and the file is closed.
    What the platform decides is gathered in a [device]. *)
Record device := Device {
  name_max : nat;                  (* the longest file name, in bytes *)
  path_max : nat;                  (* a path name is shorter than this, in bytes *)
  encodable : string → bool;       (* text the encoding of the file can express *)
  holds_back : string → bool;      (* pending text the file object keeps for later *)
  refuses : world → path → string → option (errno * nat)
                                   (* data the device does not take: the error,
                                      and how many bytes it took before it *)
}.

Fixpoint has_nul (s : string) : bool :=
  match s with
  | EmptyString => false
  | String c s' => Ascii.eqb c "000" || has_nul s'
  end.

(** The walk along the components meets one that is longer than the file
    system allows, in a directory that exists. *)
Fixpoint long_component (dev : device) (w : world) (before rest : path) : bool :=
  match rest with
  | [] => false
  | c :: rest' =>
      if name_max dev <? String.length c then is_dir w before
      else long_component dev w (before ++ [c]) rest'
  end.

(** [open(name, "w")]: Python refuses a name with a null byte before it
    calls the system; the system refuses a name that is too long. *)
Definition open_dev (dev : device) (name : string) : M path :=
  if has_nul name then raise ValueError
  else if path_max dev <=? String.length name
  then raise (OSError (PlainOSError ENAMETOOLONG) (resolve name))
  else λ w, if long_component dev w [] (resolve name)
            then (w, Raise (OSError (PlainOSError ENAMETOOLONG) (resolve name)))
            else open_w name w.

(** A statement inside the [with] block: it runs in a world and with the
    text that the file object has taken and not yet passed on. *)
Definition F (A : Type) : Type := string → world → world * string * res A.

Definition retF {A} (a : A) : F A := λ pending w, (w, pending, Ok a).
Definition bindF {A B} (m : F A) (k : A → F B) : F B :=
  λ pending w, match m pending w with
               | (w', pending', Ok a) => k a pending' w'
               | (w', pending', Raise e) => (w', pending', Raise e)
               end.
Definition liftF {A} (m : M A) : F A :=
  λ pending w, match m w with (w', r) => (w', pending, r) end.

Declare Scope with_scope.
Delimit Scope with_scope with W.
Notation "x <- m ;; k" := (bindF m (λ x, k))
  (at level 100, m at next level, right associativity) : with_scope.
Notation "m ;; k" := (bindF m (λ _, k))
  (at level 100, right associativity) : with_scope.

(** The device stores [data] at the end of the file [f]. *)
Definition store (f : path) (data : string) (w : world) : world :=
  if String.eqb data "" then w else (f_write f data w).1.

(** The file object passes the pending text on.  Nothing is sent when
    nothing is pending; a device that refuses has stored the first bytes,
    the rest stays pending, and the [OSError] has no file name. *)
Definition flush (dev : device) (f : path) : F unit :=
  λ pending w,
    if String.eqb pending "" then (w, "", Ok tt)
    else match refuses dev w f pending with
         | None => (store f pending w, "", Ok tt)
         | Some (code, n) =>
             (store f (String.substring 0 n pending) w,
              String.substring n (String.length pending - n) pending,
              Raise (OSErrorNoFilename code))
         end.

(** [f.write(data)] on the text file object. *)
Definition f_write_dev (dev : device) (f : path) (data : string) : F unit :=
  λ pending w,
    if encodable dev data
    then if holds_back dev (pending +:+ data)
         then (w, pending +:+ data, Ok tt)
         else flush dev f (pending +:+ data) w
    else (w, pending, Raise UnicodeEncodeError).

(** [with ... as f: body]: the file is closed when the body is left,
    whether it returned or raised; closing passes the pending text on, and
    an error of closing is the one that goes on. *)
Definition with_file {A} (dev : device) (f : path) (body : F A) : M A :=
  λ w, match body "" w with
       | (w1, pending, r) =>
           match flush dev f pending w1 with
           | (w2, _, Ok _) => (w2, r)
           | (w2, _, Raise e) => (w2, Raise e)
           end
       end.

(** The statements of the [with] block (lines 185-190). *)
Definition rule_body (dev : device) (f : path) (rule : rule) : F unit :=
  (t <- liftF (getitem "rule_type" (rule_type rule)) ;;
   f_write_dev dev f ("Rule Type: " +:+ t +:+ LF +:+ LF) ;;
   match file_patterns rule with
   | Some patterns =>
       f_write_dev dev f ("File Pattern Matches: " +:+ str_join ", " patterns +:+ LF +:+ LF)
   | None => retF tt
   end ;;
   match description rule with
   | Some d => f_write_dev dev f ("Description: " +:+ d +:+ LF +:+ LF)
   | None => retF tt
   end ;;
   c <- liftF (getitem "content" (content rule)) ;;
   f_write_dev dev f c)%W.

(** The body of the loop (lines 183-190). *)
Definition write_rule_dev (dev : device) (rules_dir : string) (filename : string)
    (rule : rule) : M unit :=
  let filepath := os_path_join rules_dir filename in
  f <- open_dev dev filepath ;;
  with_file dev f (rule_body dev f rule).

Fixpoint for_items_dev (dev : device) (rules_dir : string)
    (items : list (string * rule)) : M unit :=
  match items with
  | [] => ret tt
  | (filename, rule) :: rest =>
      write_rule_dev dev rules_dir filename rule ;; for_items_dev dev rules_dir rest
  end.

(** The module body on a device. *)
Definition script_dev (dev : device) (rules_dir : string)
    (rules : list (string * rule)) : M unit :=
  makedirs rules_dir ;;
  for_items_dev dev rules_dir rules ;;
  print ("✅ Successfully created rule files in " +:+ rules_dir).

(** ** The constants of the module *)

Definition rules_dir : string := ".cursor/rules".

Definition rules : list (string * rule) := [
  ("always.mdc",
   {| rule_type := Some "Always";
      file_patterns := None;
      description := None;
      content := Some "# Always Rules

These rules apply to every task, no exceptions.

## Stay Focused on the Task
- Work **only** on the specific task at hand; do not go out of scope.

## Preserve Established Patterns
- Do not modify workflows, structures, or conventions unless absolutely necessary.

## Avoid Duplication
- Before writing new code, check for existing functions that accomplish the same goal.
- Identify and clean up redundant or duplicate code.

## Enforce Code Cleanliness
- Refactor bloated files and avoid functions longer than **300 lines**.
- Ensure modularity for maintainability.

## Commit & Document Work Often
- Make **incremental commits** with clear, structured commit messages.
- Keep local files organized to track project progress.

## Keep Solutions Simple
- Avoid over-engineering; prioritize clarity and efficiency.
" |});

  ("testing.mdc",
   {| rule_type := Some "Always";
      file_patterns := Some ["*_test.py"; "tests/**"; "*.spec.tsx"];
      description := None;
      content := Some "# Testing Rules

These rules ensure every task is validated with proper testing.

## Plan Testing Before Development
- Define **unit tests** and **end-to-end tests** before coding.
- Identify edge cases, failure scenarios, and performance limits.

## Execute Tests to Prove Work is Complete
- Run all relevant tests before submitting a task.
- Ensure no regressions or breakages.

## Unit Testing Best Practices
- Cover core logic and edge cases.
- Use the right frameworks:
  - **Flask/Python:** `pytest`
  - **LWC:** Jest
  - **React Native:** React Testing Library + Jest

## End-to-End Testing Guidelines
- Test complete workflows for real-world validation.
- Automate tests using **Selenium, Cypress, or Playwright**.

## Maintain Test Quality
- Prioritize meaningful test cases over sheer quantity.
- Add new test cases for any discovered bugs.
" |});

  ("git-rules.mdc",
   {| rule_type := Some "Auto Attached";
      file_patterns := Some ["*.sh"; "*.gitignore"; ".cursor/config.json"];
      description := None;
      content := Some "# Git & Repository Management Rules

## Every Project Must Have a GitHub Repository
- If no repository exists, create a **new public GitHub repo**.
- Store repository details in a **standardized location** for reference.

## Commit Often with Detailed Notes
- Use structured commit messages:
  - **Feature Addition:** `feat: Added [feature]`
  - **Bug Fix:** `fix: Resolved [issue]`
  - **Refactor:** `refactor: Improved [module]`

## Automate Repository Setup
- Initialize Git (`git init`) if needed.
- Add a **`.gitignore`** file.
- Push an initial commit with a **`README.md`**.

## Branching Best Practices
- Use **feature branches** for new work.
- Merge via **pull requests** (PRs), not direct commits.
" |});

  ("build-planning.mdc",
   {| rule_type := Some "Auto Attached";
      file_patterns := Some ["docs/*.md"; "plans/*.json"];
      description := None;
      content := Some "# Build Planning Rules

These rules ensure agents create structured project plans.

## Map Out a Build Plan
- Before coding, generate a **clear build plan** outlining:
  - Features to be developed.
  - Dependencies and integrations.
  - Expected output.

## Store and Catalog Plans
- Plans should be **saved locally** and easily accessible by agents.
- Completed plans should be cataloged for reference.

## Break Plans Into Daily Goals
- Tasks should be **divided into actionable goals**.
- Reference previous work to ensure continuity.
" |});

  ("context-passing.mdc",
   {| rule_type := Some "Auto Attached";
      file_patterns := Some ["*.md"; "context/*.json"];
      description := None;
      content := Some "# Context Passing Rules

Ensures smooth transitions between agents due to tool limitations.

## Efficiently Pass Context
- After **25 tool calls**, wrap up and generate a **handoff prompt**.
- Store key progress details in an **accessible location**.

## Automate Context Retention
- Use an **indexing system** to allow agents to search previous work.
- Prioritize **important decisions** in context notes.

## Standardize Handoff Prompts
- Clearly state what has been completed and **next steps** for the next agent.
- Include **relevant files, APIs, or database updates**.
" |});

  ("manual.mdc",
   {| rule_type := Some "Manual";
      file_patterns := None;
      description := None;
      content := Some "# Manual Rules

These rules apply when manually activated.

## Refactoring & Optimization
- Break down large functions into **smaller, reusable modules**.
- Apply **performance improvements** only when requested.

## Deep Code Review & Debugging
- Conduct **in-depth reviews** beyond automated linting.
- Debug tricky issues with **additional logging and tracing**.

## Custom Implementations
- Write specialized solutions only **when standard approaches won't work**.
" |});

  ("agent-requested.mdc",
   {| rule_type := Some "Agent Requested";
      file_patterns := None;
      description := Some "Use when a task requires alternative approaches, deep optimizations, or refactoring guidance.";
      content := Some "# Agent Requested Rules

These rules apply only when explicitly requested.

## Suggest Alternative Approaches
- Provide multiple ways to solve a problem, with trade-offs.

## Optimize for Learning
- Explain technical decisions in **clear, concise terms**.

## Review & Improve Existing Code
- Identify areas for **refactoring** or **improvement** without assuming changes are needed.

## Provide a First Draft Before Finalizing
- For complex work, generate a **draft version** before completing the full implementation.
" |})
].

(** What a process is started with.  The script reads neither. *)
Record process_input := ProcessInput {
  argv : list string;
  environ : gmap string string
}.

(** Running [python cursor_rules_setup.py]. *)
Definition main (input : process_input) : M unit :=
  script rules_dir rules.

(** A file system with nothing in the current directory. *)
Definition empty_world : world := World ∅ ∅ ∅ [].

(** ** Vocabulary of the properties *)

Definition no_sep (k : string) : bool :=
  forallb (λ c, negb (is_sep c)) (list_ascii_of_string k).

(** A file name proper: one component, neither empty nor a dot entry. *)
Definition plain_name (k : string) : bool :=
  negb (String.eqb k "") && negb (String.eqb k ".") && negb (String.eqb k "..")
  && no_sep k.

(** The layout of section 4.1 of the specification, in its words: the rule
    type line and a blank line, the pattern line and a blank line when there
    are patterns, the description line and a blank line when there is a
    description, then the content. *)
Definition layout (t : string) (patterns : option (list string))
    (desc : option string) (c : string) : string :=
  "Rule Type: " +:+ t +:+ LF +:+ LF +:+
  match patterns with
  | Some ps => "File Pattern Matches: " +:+ str_join ", " ps +:+ LF +:+ LF
  | None => ""
  end +:+
  match desc with
  | Some d => "Description: " +:+ d +:+ LF +:+ LF
  | None => ""
  end +:+
  c.

(** The file an item of the table is written to. *)
Definition rule_path (rules_dir : string) (item : string * rule) : path :=
  resolve (os_path_join rules_dir item.1).

(** The text of a rule that has its two mandatory keys. *)
Definition rule_text (r : rule) : string :=
  layout (default "" (rule_type r)) (file_patterns r) (description r)
         (default "" (content r)).

(** The strings the loop body hands to [f.write], in order. *)
Definition rule_chunks (r : rule) : list string :=
  ["Rule Type: " +:+ default "" (rule_type r) +:+ LF +:+ LF] ++
  match file_patterns r with
  | Some ps => ["File Pattern Matches: " +:+ str_join ", " ps +:+ LF +:+ LF]
  | None => []
  end ++
  match description r with
  | Some d => ["Description: " +:+ d +:+ LF +:+ LF]
  | None => []
  end ++
  [default "" (content r)].

Definition rule_events (rules_dir : string) (item : string * rule) : list event :=
  Open (rule_path rules_dir item) ::
  map (Write (rule_path rules_dir item)) (rule_chunks item.2).

(** The files after the items were written one after the other. *)
Definition written (rules_dir : string) (items : list (string * rule))
    (m : gmap path string) : gmap path string :=
  foldl (λ m item, <[rule_path rules_dir item := rule_text item.2]> m) m items.

Definition may_create (w : world) (p : path) : bool :=
  is_dir w (parent p) && negb (bool_decide (p ∈ denied w)).

(** [open(name, "w")] is possible. *)
Definition can_open (w : world) (name : string) : bool :=
  negb (is_dir w (resolve name) || endswith_sep name) && may_create w (resolve name).

(** The loop body runs to its end on this item. *)
Definition writable (rules_dir : string) (w : world) (item : string * rule) : Prop :=
  can_open w (os_path_join rules_dir item.1) = true ∧
  is_Some (rule_type item.2) ∧ is_Some (content item.2).

(** The world a successful loop leaves. *)
Definition emitted_world (rules_dir : string) (items : list (string * rule))
    (w : world) : world :=
  World (dirs w) (written rules_dir items (files w)) (denied w)
        (trace w ++ flat_map (rule_events rules_dir) items).

(** Every directory has its parent: what a file system guarantees. *)
Definition dirs_closed (w : world) : Prop :=
  ∀ p, is_dir w p = true → is_dir w (parent p) = true.

(** The directory with reversed components [rp] is there, under an
    existing parent. *)
Definition made (w : world) (rp : list string) : Prop :=
  match rp with
  | [] => True
  | _ :: rhead =>
      is_dir w (rev rp) = true ∧ (rhead = [] ∨ exists_path w (rev rhead) = true)
  end.

(** The paths [os.makedirs] may create: the directory and its ancestors. *)
Fixpoint lineage (rp : list string) : list path :=
  match rp with
  | [] => []
  | _ :: rhead => rev rp :: lineage rhead
  end.

Fixpoint ends_with_newline (s : string) : bool :=
  match s with
  | EmptyString => false
  | String c EmptyString => Ascii.eqb c "010"
  | String _ s' => ends_with_newline s'
  end.

Definition file_event (P : path → Prop) (e : event) : Prop :=
  match e with
  | Open p | Write p _ => P p
  | Mkdir _ | Print _ => False
  end.

(** A statement that only creates or rewrites files satisfying [P],
    whether it returns or raises. *)
Definition touches_only {A} (P : path → Prop) (m : M A) : Prop :=
  ∀ w w' r, m w = (w', r) →
    dirs w' = dirs w ∧ denied w' = denied w ∧
    (∀ q, ¬ P q → files w' !! q = files w !! q) ∧
    ∃ evs, trace w' = trace w ++ evs ∧ Forall (file_event P) evs.

Definition dir_event (P : path → Prop) (e : event) : Prop :=
  match e with
  | Mkdir p => P p
  | Open _ | Write _ _ | Print _ => False
  end.

(** A statement that only adds directories satisfying [P], whether it
    returns or raises. *)
Definition makes_only {A} (P : path → Prop) (m : M A) : Prop :=
  ∀ w w' r, m w = (w', r) →
    files w' = files w ∧ denied w' = denied w ∧
    (∀ q, is_dir w q = true → is_dir w' q = true) ∧
    (∀ q, is_dir w' q = true → is_dir w q = true ∨ P q) ∧
    (dirs_closed w → dirs_closed w') ∧
    ∃ evs, trace w' = trace w ++ evs ∧ Forall (dir_event P) evs.

(** Nothing stands in the way of making the directory and its ancestors:
    none of them is a regular file or denied. *)
Definition creatable (w : world) (rp : list string) : Prop :=
  ∀ q, q ∈ lineage rp → is_file w q = false ∧ q ∉ denied w.




(** A name that [open] takes on the device. *)
Definition name_fits (dev : device) (name : string) : Prop :=
  has_nul name = false ∧ String.length name < path_max dev ∧
  Forall (λ c, String.length c ≤ name_max dev) (resolve name).

(** ** Sample inputs *)

(** The record of the specification's first example scenario. *)
Definition example_rule : rule :=
  {| rule_type := Some "Always"; file_patterns := None; description := None;
     content := Some ("hello" +:+ LF) |}.

(** The record of its second scenario, with file patterns. *)
Definition example_rule_patterns : rule :=
  {| rule_type := Some "Always"; file_patterns := Some ["*.py"; "tests/**"];
     description := None; content := Some ("hello" +:+ LF) |}.

Definition example_table : list (string * rule) := [("x.mdc", example_rule)].

Definition example_table_patterns : list (string * rule) :=
  [("x.mdc", example_rule_patterns)].

(** A project in which the rules were emitted before and one of them was
    edited since, next to an unrelated file. *)
Definition used_world : world :=
  World {[ [".cursor"]; [".cursor"; "rules"] ]}
        {[ [".cursor"; "rules"; "always.mdc"] := "stale text";
           ["README.md"] := "readme" ]}
        ∅ [].

(** A table of three records, and a project in which the file of the
    second one may not be written. *)
Definition three_records : list (string * rule) :=
  [("x.mdc", example_rule); ("y.mdc", example_rule_patterns); ("z.mdc", example_rule)].

Definition locked_world : world :=
  World {[ ["targetDir"] ]} ∅ {[ ["targetDir"; "y.mdc"] ]} [].

Definition no_input : process_input := ProcessInput ["cursor_rules_setup.py"] ∅.



(** Evaluates a run on a concrete world. *)
Ltac run_script :=
  match goal with
  | |- ?m ?w = _ => vm_cast_no_check (eq_refl (m w))
  end.

(** ** Vocabulary and samples for the further properties *)

(** A statement that removes no file, whether it returns or raises. *)
Definition keeps_files {A} (m : M A) : Prop :=
  ∀ w w' r, m w = (w', r) →
    ∀ q, is_Some (files w !! q) → is_Some (files w' !! q).

(** The header the loop body writes before it reads [rule["content"]]. *)
Definition header_chunks (r : rule) : list string :=
  ["Rule Type: " +:+ default "" (rule_type r) +:+ LF +:+ LF] ++
  match file_patterns r with
  | Some ps => ["File Pattern Matches: " +:+ str_join ", " ps +:+ LF +:+ LF]
  | None => []
  end ++
  match description r with
  | Some d => ["Description: " +:+ d +:+ LF +:+ LF]
  | None => []
  end.


Definition rule_without_content : rule :=
  {| rule_type := Some "Manual"; file_patterns := Some ["*.md"];
     description := Some "why"; content := None |}.

Definition rule_empty_patterns : rule :=
  {| rule_type := Some "Always"; file_patterns := Some []; description := None;
     content := Some ("hello" +:+ LF) |}.

(** Two keys that name the same file. *)
Definition aliasing_table : list (string * rule) :=
  [("x.mdc", example_rule_patterns); ("./x.mdc", example_rule)].

(** A project in which a regular file has the name of the target
    directory. *)
Definition blocked_world : world :=
  World ∅ {[ ["targetDir"] := "a file" ]} ∅ [].

(** * Properties *)

(** ** Paths *)

Section path_lemmas.

Lemma split_sep_cons s : ∃ h t, split_sep s = h :: t.
Proof.
  induction s as [|c s [h [t IH]]]; simpl; [by eexists _, _|].
  destruct (is_sep c); [by eexists _, _|]. rewrite IH. by eexists _, _.
Qed.

Lemma append_cons x (a b : string) : String x a +:+ b = String x (a +:+ b).
Proof. reflexivity. Qed.

Lemma append_assoc (a b c : string) : a +:+ b +:+ c = (a +:+ b) +:+ c.
Proof. induction a as [|x a IH]; [done|]. by rewrite !append_cons, IH. Qed.

Lemma split_sep_app_sep a b :
  split_sep (a +:+ "/" +:+ b) = split_sep a ++ split_sep b.
Proof.
  induction a as [|c a IH]; [done|].
  rewrite append_cons. cbn [split_sep].
  destruct (is_sep c); [by rewrite IH|].
  rewrite IH. by destruct (split_sep_cons a) as (h & t & ->).
Qed.

Lemma split_sep_sep_end a : split_sep (a +:+ "/") = split_sep a ++ [""].
Proof. apply (split_sep_app_sep a ""). Qed.

Lemma split_sep_no_sep k : no_sep k = true → split_sep k = [k].
Proof.
  unfold no_sep. induction k as [|c k IH]; simpl; [done|].
  intros [Hc Hk]%andb_true_iff. apply negb_true_iff in Hc. rewrite Hc.
  by rewrite (IH Hk).
Qed.

Lemma endswith_sep_inv a : endswith_sep a = true → ∃ a', a = a' +:+ "/".
Proof.
  induction a as [|c a IH]; simpl; [done|].
  destruct a as [|c' a].
  - intros Hc. apply Ascii.eqb_eq in Hc as ->. by exists "".
  - intros [a' Ha']%IH. exists (String c a'). by rewrite Ha'.
Qed.

Lemma endswith_sep_app a k :
  k ≠ "" → endswith_sep (a +:+ k) = endswith_sep k.
Proof.
  intros Hk. induction a as [|c a IH]; simpl; [done|].
  destruct (a +:+ k) eqn:E; [|done].
  destruct a; simpl in E; [done | discriminate].
Qed.

Lemma no_sep_endswith k : no_sep k = true → endswith_sep k = false.
Proof.
  unfold no_sep. induction k as [|c k IH]; simpl; [done|].
  intros [Hc Hk]%andb_true_iff. apply negb_true_iff in Hc.
  destruct k; [done | by apply IH].
Qed.

Lemma no_sep_startswith k : no_sep k = true → startswith_sep k = false.
Proof.
  unfold no_sep. destruct k as [|c k]; simpl; [done|].
  intros [Hc _]%andb_true_iff. by apply negb_true_iff in Hc.
Qed.

Lemma startswith_sep_app a b : a ≠ "" → startswith_sep (a +:+ b) = startswith_sep a.
Proof. by destruct a. Qed.

Lemma plain_name_inv k :
  plain_name k = true → k ≠ "" ∧ real_component k = true ∧ no_sep k = true.
Proof.
  unfold plain_name, real_component.
  intros [[[H1 H2]%andb_true_iff _]%andb_true_iff H4]%andb_true_iff.
  rewrite H1, H2. split_and!; try done.
  intros ->. done.
Qed.

Lemma append_sep_assoc d k : d +:+ "/" +:+ k = (d +:+ "/") +:+ k.
Proof. apply append_assoc. Qed.

Lemma resolve_join_plain d k :
  plain_name k = true → resolve (os_path_join d k) = resolve d ++ [k].
Proof.
  intros (Hne & Hreal & Hsep)%plain_name_inv.
  assert (resolve k = [k]) as Hk.
  { unfold resolve. rewrite (no_sep_startswith _ Hsep), (split_sep_no_sep _ Hsep).
    cbn [List.filter]. by rewrite Hreal. }
  unfold os_path_join. rewrite (no_sep_startswith _ Hsep).
  destruct (String.eqb_spec d "") as [->|Hd]; [done|].
  rewrite orb_false_l.
  destruct (endswith_sep d) eqn:Hend.
  - destruct (endswith_sep_inv _ Hend) as [d' ->].
    unfold resolve.
    rewrite <- append_sep_assoc.
    rewrite split_sep_app_sep, split_sep_sep_end, !List.filter_app.
    rewrite (split_sep_no_sep _ Hsep).
    cbn [List.filter]. rewrite Hreal.
    replace (startswith_sep (d' +:+ "/" +:+ k)) with (startswith_sep (d' +:+ "/"))
      by (by destruct d').
    change (real_component "") with false. cbn iota.
    by rewrite app_nil_r, app_assoc.
  - unfold resolve.
    rewrite split_sep_app_sep, List.filter_app, (split_sep_no_sep _ Hsep).
    cbn [List.filter]. rewrite Hreal.
    rewrite append_sep_assoc, (startswith_sep_app (d +:+ "/") k), (startswith_sep_app d "/" Hd);
      [by rewrite app_assoc | by destruct d].
Qed.

Lemma endswith_join_plain d k :
  plain_name k = true → endswith_sep (os_path_join d k) = false.
Proof.
  intros (Hne & Hreal & Hsep)%plain_name_inv.
  unfold os_path_join. rewrite (no_sep_startswith _ Hsep).
  destruct (_ || _).
  - by rewrite endswith_sep_app, no_sep_endswith.
  - by rewrite append_sep_assoc, endswith_sep_app, no_sep_endswith.
Qed.

End path_lemmas.

(** ** System calls *)

Section syscalls.

Lemma bind_ok {A B} (m : M A) (k : A → M B) w w1 a :
  m w = (w1, Ok a) → bind m k w = k a w1.
Proof. unfold bind. by intros ->. Qed.

Lemma bind_raise {A B} (m : M A) (k : A → M B) w w1 e :
  m w = (w1, Raise e) → bind m k w = (w1, Raise e).
Proof. unfold bind. by intros ->. Qed.

Lemma bind_inv_ok {A B} (m : M A) (k : A → M B) w w' b :
  bind m k w = (w', Ok b) → ∃ w1 a, m w = (w1, Ok a) ∧ k a w1 = (w', Ok b).
Proof.
  unfold bind. destruct (m w) as [w1 [a|e]]; [|done]. intros H. by exists w1, a.
Qed.

Lemma bind_inv_raise {A B} (m : M A) (k : A → M B) w w' e :
  bind m k w = (w', Raise e) →
  m w = (w', Raise e) ∨ ∃ w1 a, m w = (w1, Ok a) ∧ k a w1 = (w', Raise e).
Proof.
  unfold bind. destruct (m w) as [w1 [a|e']].
  - intros H. right. by exists w1, a.
  - intros [= -> ->]. by left.
Qed.

Lemma check_create_ok p w : may_create w p = true → check_create p w = (w, Ok tt).
Proof.
  unfold may_create, check_create. intros [-> Hd]%andb_true_iff.
  apply negb_true_iff in Hd. by rewrite Hd.
Qed.

Lemma check_create_fail p w :
  may_create w p = false → ∃ kind, check_create p w = (w, Raise (OSError kind p)).
Proof.
  unfold may_create, check_create. destruct (is_dir w (parent p)); simpl.
  - intros ->%negb_false_iff. by eexists.
  - intros _. destruct (is_file w (parent p)); by eexists.
Qed.

Lemma open_w_ok name w :
  can_open w name = true →
  open_w name w =
    (World (dirs w) (<[resolve name := ""]> (files w)) (denied w)
           (trace w ++ [Open (resolve name)]), Ok (resolve name)).
Proof.
  unfold can_open, open_w. intros [Hd Hc]%andb_true_iff.
  apply negb_true_iff in Hd. rewrite Hd.
  by rewrite (bind_ok _ _ _ _ _ (check_create_ok _ _ Hc)).
Qed.

Lemma open_w_fail name w :
  can_open w name = false →
  ∃ kind, open_w name w = (w, Raise (OSError kind (resolve name))).
Proof.
  unfold can_open, open_w. destruct (_ || _); simpl; [by eexists|].
  intros [kind Hk]%check_create_fail. exists kind.
  by rewrite (bind_raise _ _ _ _ _ Hk).
Qed.

Lemma can_open_ext w1 w2 name :
  dirs w1 = dirs w2 → denied w1 = denied w2 → can_open w1 name = can_open w2 name.
Proof.
  unfold can_open, may_create, is_dir. by intros -> ->.
Qed.

End syscalls.

(** ** The loop body *)

Section loop_body.

Lemma f_write_top f data ds m dn tr s :
  f_write f data (World ds (<[f := s]> m) dn tr) =
    (World ds (<[f := s +:+ data]> m) dn (tr ++ [Write f data]), Ok tt).
Proof.
  unfold f_write. cbn [dirs files denied trace].
  by rewrite lookup_insert_eq, insert_insert_eq.
Qed.

Lemma bind_ret {A B} (a : A) (k : A → M B) w : bind (ret a) k w = k a w.
Proof. reflexivity. Qed.

Lemma bind_f_write {B} f data (k : unit → M B) ds m dn tr s :
  bind (f_write f data) k (World ds (<[f := s]> m) dn tr) =
    k tt (World ds (<[f := s +:+ data]> m) dn (tr ++ [Write f data])).
Proof. unfold bind. by rewrite f_write_top. Qed.

Lemma write_rule_ok d k r w :
  writable d w (k, r) →
  write_rule d k r w =
    (World (dirs w) (<[rule_path d (k, r) := rule_text r]> (files w)) (denied w)
           (trace w ++ rule_events d (k, r)), Ok tt).
Proof.
  intros (Hopen & [t Ht] & [c Hc]). cbn [fst snd] in *.
  unfold write_rule, rule_events, rule_text, rule_chunks, rule_path.
  cbn [fst snd]. rewrite Ht, Hc. cbn [default from_option id getitem].
  set (p := resolve (os_path_join d k)).
  rewrite (bind_ok _ _ _ _ _ (open_w_ok _ _ Hopen)). fold p. cbv beta.
  unfold layout.
  destruct (file_patterns r) as [ps|], (description r) as [ds|];
    repeat (rewrite bind_ret || rewrite bind_f_write);
    rewrite f_write_top; cbn [map app]; rewrite <- !app_assoc, <- !append_assoc;
    reflexivity.
Qed.

Lemma write_rule_open_fail d k r w :
  can_open w (os_path_join d k) = false →
  ∃ kind, write_rule d k r w = (w, Raise (OSError kind (rule_path d (k, r)))).
Proof.
  intros [kind Hk]%open_w_fail. exists kind.
  unfold write_rule. by rewrite (bind_raise _ _ _ _ _ Hk).
Qed.

End loop_body.

(** ** The footprint of the loop *)

Section footprint.

Lemma touches_only_ret {A} P (a : A) : touches_only P (ret a).
Proof.
  intros w w' r [= <- <-]. split_and!; try done.
  exists []. by rewrite app_nil_r.
Qed.

Lemma touches_only_raise {A} P e : touches_only P (@raise A e).
Proof.
  intros w w' r [= <- <-]. split_and!; try done.
  exists []. by rewrite app_nil_r.
Qed.

Lemma touches_only_bind_post {A B} P (R : A → Prop) (m : M A) (k : A → M B) :
  touches_only P m →
  (∀ w w1 a, m w = (w1, Ok a) → R a) →
  (∀ a, R a → touches_only P (k a)) →
  touches_only P (bind m k).
Proof.
  intros Hm HR Hk w w' r. unfold bind.
  destruct (m w) as [w1 [a|e]] eqn:E.
  - intros Hka. destruct (Hm _ _ _ E) as (Hd & Hn & Hf & evs & Ht & Hevs).
    destruct (Hk a (HR _ _ _ E) _ _ _ Hka) as (Hd' & Hn' & Hf' & evs' & Ht' & Hevs').
    split_and!; [congruence | congruence | |].
    + intros q Hq. by rewrite Hf', Hf.
    + exists (evs ++ evs'). split; [by rewrite Ht', Ht, app_assoc|].
      by apply Forall_app.
  - intros [= <- <-]. apply (Hm _ _ _ E).
Qed.

Lemma touches_only_bind {A B} P (m : M A) (k : A → M B) :
  touches_only P m → (∀ a, touches_only P (k a)) → touches_only P (bind m k).
Proof.
  intros Hm Hk. apply (touches_only_bind_post P (λ _, True)); auto.
Qed.

Lemma touches_only_mono {A} (P Q : path → Prop) (m : M A) :
  (∀ p, P p → Q p) → touches_only P m → touches_only Q m.
Proof.
  intros HPQ Hm w w' r E. destruct (Hm _ _ _ E) as (Hd & Hn & Hf & evs & Ht & Hevs).
  split_and!; try done.
  - intros q Hq. apply Hf. naive_solver.
  - exists evs. split; [done|]. eapply Forall_impl; [done|].
    intros [] ?; simpl in *; auto.
Qed.

Lemma touches_only_open_w name : touches_only (λ q, q = resolve name) (open_w name).
Proof.
  intros w w' r. destruct (can_open w name) eqn:E.
  - rewrite (open_w_ok _ _ E). intros [= <- <-]. cbn [dirs denied files trace].
    split_and!; try done.
    + intros q Hq. by rewrite lookup_insert_ne.
    + eexists. split; [done|]. by constructor.
  - destruct (open_w_fail _ _ E) as [kind ->]. intros [= <- <-].
    split_and!; try done. exists []. by rewrite app_nil_r.
Qed.

Lemma touches_only_f_write f data : touches_only (λ q, q = f) (f_write f data).
Proof.
  intros w w' r [= <- <-]. cbn [dirs denied files trace].
  split_and!; try done.
  - intros q Hq. by rewrite lookup_insert_ne.
  - eexists. split; [done|]. by constructor.
Qed.

Lemma touches_only_getitem P key v : touches_only P (getitem key v).
Proof.
  destruct v; [apply touches_only_ret | apply touches_only_raise].
Qed.

Lemma open_w_returns name w w1 f : open_w name w = (w1, Ok f) → f = resolve name.
Proof.
  destruct (can_open w name) eqn:E.
  - rewrite (open_w_ok _ _ E). by intros [= _ <-].
  - by destruct (open_w_fail _ _ E) as [kind ->].
Qed.

Lemma touches_only_write_rule d k r :
  touches_only (λ q, q = rule_path d (k, r)) (write_rule d k r).
Proof.
  unfold write_rule.
  apply (touches_only_bind_post _ (λ f, f = rule_path d (k, r)));
    [apply touches_only_open_w | apply open_w_returns |].
  intros f ->.
  apply touches_only_bind; [apply touches_only_getitem | intros t].
  apply touches_only_bind; [apply touches_only_f_write | intros _].
  apply touches_only_bind; [| intros _].
  { destruct (file_patterns r); [apply touches_only_f_write | apply touches_only_ret]. }
  apply touches_only_bind; [| intros _].
  { destruct (description r); [apply touches_only_f_write | apply touches_only_ret]. }
  apply touches_only_bind; [apply touches_only_getitem | intros c].
  apply touches_only_f_write.
Qed.

Lemma touches_only_for_items d items :
  touches_only (λ q, q ∈ map (rule_path d) items) (for_items d items).
Proof.
  induction items as [|[k r] items IH]; cbn [for_items].
  - apply touches_only_ret.
  - apply touches_only_bind; [|intros _].
    + eapply touches_only_mono; [|apply touches_only_write_rule].
      intros p ->. cbn [map]. apply elem_of_cons. by left.
    + eapply touches_only_mono; [|apply IH].
      intros p Hp. cbn [map]. apply elem_of_cons. by right.
Qed.

End footprint.

(** ** The loop *)

Section loop.

Lemma write_rule_ok_inv d k r w w' :
  write_rule d k r w = (w', Ok tt) → writable d w (k, r).
Proof.
  intros E. unfold writable. cbn [fst snd].
  destruct (can_open w (os_path_join d k)) eqn:Hopen; last first.
  { destruct (write_rule_open_fail d k r w Hopen) as [kind Hk]. congruence. }
  split; [done|].
  unfold write_rule in E.
  rewrite (bind_ok _ _ _ _ _ (open_w_ok _ _ Hopen)) in E. cbv beta in E.
  destruct (rule_type r) as [t|]; [|discriminate E].
  split; [done|].
  destruct (content r) as [c|]; [done|].
  cbn [getitem] in E.
  destruct (file_patterns r), (description r);
    repeat (rewrite bind_ret in E || rewrite bind_f_write in E); discriminate E.
Qed.

Lemma writable_ext d w1 w2 item :
  dirs w1 = dirs w2 → denied w1 = denied w2 → writable d w1 item → writable d w2 item.
Proof.
  intros Hd Hn (Ho & Ht & Hc). split; [|done].
  by rewrite <- (can_open_ext w1 w2).
Qed.

Lemma for_items_success d items w :
  Forall (writable d w) items →
  for_items d items w = (emitted_world d items w, Ok tt).
Proof.
  revert w. induction items as [|[k r] items IH]; intros w Hall.
  - unfold emitted_world, written. cbn. rewrite app_nil_r. by destruct w.
  - apply Forall_cons in Hall as [Hw Hall]. cbn [for_items].
    rewrite (bind_ok _ _ _ _ _ (write_rule_ok _ _ _ _ Hw)).
    rewrite IH.
    + unfold emitted_world. cbn [dirs files denied trace flat_map written foldl].
      by rewrite <- app_assoc.
    + eapply Forall_impl; [exact Hall|]. intros item. by apply writable_ext.
Qed.

Lemma for_items_ok_inv d items w w' :
  for_items d items w = (w', Ok tt) → Forall (writable d w) items.
Proof.
  revert w. induction items as [|[k r] items IH]; intros w E; [constructor|].
  cbn [for_items] in E. apply bind_inv_ok in E as (w1 & [] & E1 & E2).
  pose proof (write_rule_ok_inv _ _ _ _ _ E1) as Hw.
  constructor; [done|].
  rewrite (write_rule_ok _ _ _ _ Hw) in E1. injection E1 as <-.
  eapply Forall_impl; [exact (IH _ E2)|]. intros item. by apply writable_ext.
Qed.

Lemma for_items_ok d items w w' :
  for_items d items w = (w', Ok tt) → w' = emitted_world d items w.
Proof.
  intros E. pose proof (for_items_success _ _ _ (for_items_ok_inv _ _ _ _ E)).
  congruence.
Qed.

Lemma bind_assoc {A B C} (m : M A) (f : A → M B) (g : B → M C) w :
  bind (bind m f) g w = bind m (λ a, bind (f a) g) w.
Proof. unfold bind. by destruct (m w) as [w1 [a|e]]. Qed.

Lemma for_items_app d xs ys w :
  for_items d (xs ++ ys) w = bind (for_items d xs) (λ _, for_items d ys) w.
Proof.
  revert w. induction xs as [|[k r] xs IH]; intros w; [done|].
  cbn [for_items app]. rewrite bind_assoc.
  destruct (write_rule d k r w) as [w1 [[]|e]] eqn:E.
  - rewrite !(bind_ok _ _ _ _ _ E). apply IH.
  - by rewrite !(bind_raise _ _ _ _ _ E).
Qed.

(** Projections of the trace. *)

Lemma opened_rule_events d item : 
  omap (λ e, match e with Open p => Some p | _ => None end) (rule_events d item)
  = [rule_path d item].
Proof.
  unfold rule_events. cbn [omap]. f_equal.
  induction (rule_chunks item.2) as [|c cs IH]; [done|]. by cbn.
Qed.

Lemma stdout_rule_events d item : 
  omap (λ e, match e with Print s => Some s | _ => None end) (rule_events d item) = [].
Proof.
  unfold rule_events. cbn [omap].
  induction (rule_chunks item.2) as [|c cs IH]; [done|]. by cbn.
Qed.

Lemma opened_emitted_world d items w :
  opened (emitted_world d items w) = opened w ++ map (rule_path d) items.
Proof.
  unfold opened, emitted_world. cbn [trace]. rewrite omap_app. f_equal.
  induction items as [|item items IH]; [done|].
  cbn [flat_map map]. by rewrite omap_app, opened_rule_events, IH.
Qed.

Lemma stdout_emitted_world d items w :
  stdout (emitted_world d items w) = stdout w.
Proof.
  unfold stdout, emitted_world. cbn [trace]. rewrite omap_app.
  rewrite <- (app_nil_r (omap _ (trace w))) at 2. f_equal.
  induction items as [|item items IH]; [done|].
  cbn [flat_map]. by rewrite omap_app, stdout_rule_events, IH.
Qed.

(** What the loop leaves in the files. *)

Lemma written_cons d item items m :
  written d (item :: items) m =
  written d items (<[rule_path d item := rule_text item.2]> m).
Proof. reflexivity. Qed.

Lemma written_notin d items m q :
  q ∉ map (rule_path d) items → written d items m !! q = m !! q.
Proof.
  revert m. induction items as [|item items IH]; intros m Hq; [done|].
  cbn [map] in Hq. apply not_elem_of_cons in Hq as [Hne Hq].
  rewrite !written_cons.
  by rewrite IH, lookup_insert_ne.
Qed.

Lemma written_base_indep d items m1 m2 q :
  q ∈ map (rule_path d) items → written d items m1 !! q = written d items m2 !! q.
Proof.
  revert m1 m2. induction items as [|item items IH]; intros m1 m2 Hq.
  - by apply elem_of_nil in Hq.
  - rewrite !written_cons.
    destruct (decide (q ∈ map (rule_path d) items)) as [Hin|Hnin]; [by apply IH|].
    cbn [map] in Hq. apply elem_of_cons in Hq as [->|?]; [|done].
    by rewrite !written_notin, !lookup_insert_eq.
Qed.

Lemma written_in d items m k r :
  NoDup (map (rule_path d) items) → (k, r) ∈ items →
  written d items m !! rule_path d (k, r) = Some (rule_text r).
Proof.
  revert m. induction items as [|item items IH]; intros m Hnd Hin.
  - by apply elem_of_nil in Hin.
  - cbn [map] in Hnd. apply NoDup_cons in Hnd as [Hnotin Hnd].
    rewrite !written_cons.
    apply elem_of_cons in Hin as [<-|Hin]; [|by apply IH].
    by rewrite written_notin, lookup_insert_eq.
Qed.

Lemma written_is_Some d items m q :
  q ∈ map (rule_path d) items →
  ∃ item, item ∈ items ∧ rule_path d item = q ∧
          written d items m !! q = Some (rule_text item.2).
Proof.
  revert m. induction items as [|item items IH]; intros m Hq.
  - by apply elem_of_nil in Hq.
  - rewrite !written_cons.
    destruct (decide (q ∈ map (rule_path d) items)) as [Hin|Hnin].
    + destruct (IH (<[rule_path d item := rule_text item.2]> m) Hin) as (it & ? & ? & ?).
      exists it. split_and!; [by apply elem_of_cons; right | done | done].
    + cbn [map] in Hq. apply elem_of_cons in Hq as [->|?]; [|done].
      exists item. split_and!; [by apply elem_of_cons; left | done |].
      by rewrite written_notin, lookup_insert_eq.
Qed.

Lemma written_idemp d items m :
  written d items (written d items m) = written d items m.
Proof.
  apply map_eq. intros q.
  destruct (decide (q ∈ map (rule_path d) items)) as [Hin|Hnin].
  - by apply written_base_indep.
  - by rewrite written_notin.
Qed.

End loop.

(** ** Making the directory *)

Section making_directories.

Lemma parent_rev_cons c rh : parent (rev (c :: rh)) = rev rh.
Proof. unfold parent. cbn [rev]. apply removelast_last. Qed.

Lemma is_dir_add w1 w2 p q :
  dirs w1 = {[p]} ∪ dirs w2 → is_dir w1 q = bool_decide (q = p) || is_dir w2 q.
Proof.
  unfold is_dir. intros ->.
  apply eq_true_iff_eq. rewrite orb_true_iff, !bool_decide_eq_true.
  rewrite elem_of_union, elem_of_singleton. tauto.
Qed.

Lemma mkdir_cases p w :
  (exists_path w p = false ∧ may_create w p = true ∧
   mkdir p w = (World ({[p]} ∪ dirs w) (files w) (denied w) (trace w ++ [Mkdir p]), Ok tt))
  ∨ (∃ kind, mkdir p w = (w, Raise (OSError kind p)) ∧
             (kind = FileExistsError → exists_path w p = true) ∧
             (exists_path w p = true ∨ may_create w p = false)).
Proof.
  unfold mkdir. destruct (exists_path w p) eqn:Hex.
  { right. exists FileExistsError. auto. }
  destruct (may_create w p) eqn:Hc.
  - left. by rewrite (bind_ok _ _ _ _ _ (check_create_ok _ _ Hc)).
  - right. destruct (check_create_fail _ _ Hc) as [kind Hk].
    exists kind. rewrite (bind_raise _ _ _ _ _ Hk). split_and!; [done | | by right].
    intros ->. unfold may_create, check_create in *.
    destruct (is_dir w (parent p)); simpl in Hc.
    + apply negb_false_iff in Hc. rewrite Hc in Hk. done.
    + destruct (is_file w (parent p)); done.
Qed.

Lemma makes_only_mkdir_guarded p :
  makes_only (λ q, q = p)
    (λ w, match mkdir p w with
          | (w', Raise e) => if is_dir w' p then (w', Ok tt) else (w', Raise e)
          | out => out
          end).
Proof.
  intros w w' r E.
  destruct (mkdir_cases p w) as [(Hex & Hc & Hm) | (kind & Hm & _ & _)]; rewrite Hm in E.
  - injection E as <- <-.
    set (w1 := World _ _ _ _).
    assert (∀ q, is_dir w1 q = bool_decide (q = p) || is_dir w q) as Hdir.
    { intros q. by apply is_dir_add. }
    split_and!; try done.
    + intros q Hq. by rewrite Hdir, Hq, orb_true_r.
    + intros q Hq. rewrite Hdir in Hq.
      apply orb_true_iff in Hq as [Hq%bool_decide_eq_true | Hq]; auto.
    + intros Hcl q Hq. rewrite Hdir in Hq. rewrite Hdir.
      apply orb_true_iff in Hq as [Hq%bool_decide_eq_true | Hq].
      * subst q. apply andb_true_iff in Hc as [Hc _]. by rewrite Hc, orb_true_r.
      * by rewrite (Hcl q Hq), orb_true_r.
    + eexists. split; [done|]. by constructor.
  - assert (w' = w) as -> by (destruct (is_dir w p); congruence).
    split_and!; try done; [by left|]. exists []. by rewrite app_nil_r.
Qed.

Lemma makes_only_ret {A} P (a : A) : makes_only P (ret a).
Proof.
  intros w w' r [= <- <-]. split_and!; try done; [by left|].
  exists []. by rewrite app_nil_r.
Qed.

Lemma makes_only_raise {A} P e : makes_only P (@raise A e).
Proof.
  intros w w' r [= <- <-]. split_and!; try done; [by left|].
  exists []. by rewrite app_nil_r.
Qed.

Lemma makes_only_mono {A} (P Q : path → Prop) (m : M A) :
  (∀ p, P p → Q p) → makes_only P m → makes_only Q m.
Proof.
  intros HPQ Hm w w' r E.
  destruct (Hm _ _ _ E) as (Hf & Hn & Hup & Hnew & Hcl & evs & Ht & Hevs).
  split_and!; try done.
  - intros q Hq. destruct (Hnew q Hq); auto.
  - exists evs. split; [done|]. eapply Forall_impl; [done|].
    intros [] ?; simpl in *; auto.
Qed.

Lemma makes_only_bind {A B} P (m : M A) (k : A → M B) :
  makes_only P m → (∀ a, makes_only P (k a)) → makes_only P (bind m k).
Proof.
  intros Hm Hk w w' r. unfold bind.
  destruct (m w) as [w1 [a|e]] eqn:E.
  - intros Hka.
    destruct (Hm _ _ _ E) as (Hf & Hn & Hup & Hnew & Hcl & evs & Ht & Hevs).
    destruct (Hk a _ _ _ Hka) as (Hf' & Hn' & Hup' & Hnew' & Hcl' & evs' & Ht' & Hevs').
    split_and!; [congruence | congruence | auto | | auto |].
    + intros q Hq. destruct (Hnew' q Hq); auto.
    + exists (evs ++ evs'). split; [by rewrite Ht', Ht, app_assoc|].
      by apply Forall_app.
  - intros [= <- <-]. apply (Hm _ _ _ E).
Qed.

Lemma makes_only_makedirs_rev rp :
  makes_only (λ q, q ∈ lineage rp) (makedirs_rev rp).
Proof.
  induction rp as [|c rh IH]; [apply makes_only_ret|].
  cbn [makedirs_rev]. apply makes_only_bind; [|intros _].
  - intros w w' r E.
    destruct (negb (bool_decide (rh = [])) && negb (exists_path w (rev rh))).
    + assert (∃ r0, makedirs_rev rh w = (w', r0)) as [r0 E0].
      { destruct (makedirs_rev rh w) as [w1 [[]|[?|[] ?|?| |]]]; injection E as <- <-; eauto. }
      eapply (makes_only_mono (λ q, q ∈ lineage rh)); [|exact IH|exact E0].
      intros p Hp. cbn [lineage]. apply elem_of_cons. by right.
    + revert E. apply makes_only_ret.
  - eapply makes_only_mono; [|apply makes_only_mkdir_guarded].
    intros p ->. cbn [lineage]. apply elem_of_cons. by left.
Qed.

Lemma makes_only_makedirs d :
  makes_only (λ q, q ∈ lineage (rev (resolve d))) (makedirs d).
Proof.
  unfold makedirs. destruct (String.eqb d "").
  - apply makes_only_raise.
  - apply makes_only_makedirs_rev.
Qed.

End making_directories.

Section making_directories_results.

Lemma is_file_ext w1 w2 q : files w1 = files w2 → is_file w1 q = is_file w2 q.
Proof. unfold is_file. by intros ->. Qed.

Lemma mkdir_guarded_ok p w w' :
  match mkdir p w with
  | (w', Raise e) => if is_dir w' p then (w', Ok tt) else (w', Raise e)
  | out => out
  end = (w', Ok tt) → is_dir w' p = true.
Proof.
  destruct (mkdir_cases p w) as [(Hex & Hc & ->) | (kind & -> & _ & _)].
  - intros [= <-]. rewrite (is_dir_add _ w p p); [|done].
    by rewrite bool_decide_eq_true_2.
  - destruct (is_dir w p) eqn:E; [|done]. by intros [= <-].
Qed.

Lemma mkdir_guarded_file_exists p w w' q :
  match mkdir p w with
  | (w', Raise e) => if is_dir w' p then (w', Ok tt) else (w', Raise e)
  | out => out
  end = (w', Raise (OSError FileExistsError q)) → exists_path w' p = true.
Proof.
  destruct (mkdir_cases p w) as [(Hex & Hc & ->) | (kind & -> & Hk & _)]; [done|].
  destruct (is_dir w p); [done|]. intros [= <- -> _]. by apply Hk.
Qed.

Lemma makedirs_rev_file_exists rp w w' q :
  makedirs_rev rp w = (w', Raise (OSError FileExistsError q)) →
  exists_path w' (rev rp) = true.
Proof.
  destruct rp as [|c rh]; [done|]. cbn [makedirs_rev]. intros E.
  apply bind_inv_raise in E as [E | (w1 & [] & _ & E)].
  - exfalso. destruct (_ && _); [|done].
    by destruct (makedirs_rev rh w) as [w1 [[]|[?|[] ?|?| |]]].
  - by apply mkdir_guarded_file_exists in E.
Qed.

Lemma makedirs_rev_made rp w w' : makedirs_rev rp w = (w', Ok tt) → made w' rp.
Proof.
  revert w w'. induction rp as [|c rh IH]; intros w w' E; [done|].
  cbn [makedirs_rev] in E. apply bind_inv_ok in E as (w1 & [] & E1 & E2).
  cbn [made]. split; [by apply mkdir_guarded_ok in E2|].
  destruct (decide (rh = [])) as [->|Hne]; [by left | right].
  assert (exists_path w1 (rev rh) = true) as Hex.
  { rewrite (bool_decide_eq_false_2 _ Hne) in E1. cbn [negb andb] in E1.
    destruct (exists_path w (rev rh)) eqn:Hw; cbn [negb] in E1; [congruence|].
    destruct (makedirs_rev rh w) as [w2 [[]|[?|[] ?|?| |]]] eqn:E0; try done;
      injection E1 as <-.
    - apply IH in E0. destruct rh as [|c' rh']; [done|].
      destruct E0 as [Hd _]. unfold exists_path. by rewrite Hd.
    - by apply makedirs_rev_file_exists in E0. }
  destruct (makes_only_mkdir_guarded (rev (c :: rh)) _ _ _ E2) as (Hf & _ & Hup & _).
  unfold exists_path in *. apply orb_true_iff in Hex as [Hd | Hfile].
  - by rewrite (Hup _ Hd).
  - by rewrite (is_file_ext w' w1), Hfile, orb_true_r.
Qed.

Lemma makedirs_rev_again rp w : made w rp → makedirs_rev rp w = (w, Ok tt).
Proof.
  destruct rp as [|c rh]; [done|]. intros [Hd Hp]. cbn [makedirs_rev].
  assert (negb (bool_decide (rh = [])) && negb (exists_path w (rev rh)) = false) as Hc.
  { destruct Hp as [->| ->]; [done|]. by rewrite andb_false_r. }
  unfold bind. rewrite Hc.
  destruct (mkdir_cases (rev (c :: rh)) w) as [(Hex & _ & _) | (kind & -> & _ & _)].
  - unfold exists_path in Hex. by rewrite Hd in Hex.
  - by rewrite Hd.
Qed.

Lemma creatable_tail w c rh : creatable w (c :: rh) → creatable w rh.
Proof. intros H q Hq. apply H. cbn [lineage]. apply elem_of_cons. by right. Qed.

Lemma rev_in_lineage c rh : rev (c :: rh) ∈ lineage (c :: rh).
Proof. cbn [lineage]. apply elem_of_cons. by left. Qed.

Lemma makedirs_rev_succeeds rp w :
  creatable w rp → ∃ w', makedirs_rev rp w = (w', Ok tt).
Proof.
  revert w. induction rp as [|c rh IH]; intros w Hcr; [by eexists|].
  cbn [makedirs_rev].
  (* the parent is there once the first statement is through *)
  assert (∃ w1, (if negb (bool_decide (rh = [])) && negb (exists_path w (rev rh))
                 then match makedirs_rev rh w with
                      | (w', Raise (OSError FileExistsError _)) => (w', Ok tt)
                      | out => out
                      end
                 else (w, Ok tt)) = (w1, Ok tt)
               ∧ is_dir w1 (rev rh) = true
               ∧ files w1 = files w ∧ denied w1 = denied w) as (w1 & E1 & Hpar & Hf & Hn).
  { destruct (decide (rh = [])) as [->|Hne]; [by exists w|].
    rewrite (bool_decide_eq_false_2 _ Hne). cbn [negb andb].
    destruct (exists_path w (rev rh)) eqn:Hex; cbn [negb].
    - exists w. split_and!; try done.
      destruct rh as [|c' rh']; [done|].
      destruct (Hcr (rev (c' :: rh'))) as [Hnf _].
      { cbn [lineage]. apply elem_of_cons. right. apply elem_of_cons. by left. }
      unfold exists_path in Hex. by rewrite Hnf, orb_false_r in Hex.
    - destruct (IH w (creatable_tail _ _ _ Hcr)) as [w1 E0]. exists w1.
      rewrite E0. split; [done|].
      destruct (makes_only_makedirs_rev rh _ _ _ E0) as (Hf & Hn & _).
      apply makedirs_rev_made in E0. destruct rh as [|c' rh']; [done|].
      by destruct E0 as [Hd _]. }
  unfold bind. rewrite E1.
  destruct (mkdir_cases (rev (c :: rh)) w1) as [(_ & _ & ->) | (kind & -> & _ & Hwhy)];
    [by eexists|].
  destruct (is_dir w1 (rev (c :: rh))) eqn:Hd; [by eexists|].
  (* [mkdir] cannot have failed: nothing is in its way *)
  exfalso. destruct (Hcr _ (rev_in_lineage c rh)) as [Hnf Hnd].
  destruct Hwhy as [Hex | Hno].
  - unfold exists_path in Hex. rewrite Hd, (is_file_ext w1 w), Hnf in Hex; done.
  - unfold may_create in Hno. rewrite parent_rev_cons, Hpar, Hn in Hno.
    by rewrite bool_decide_eq_false_2 in Hno.
Qed.

End making_directories_results.

(** ** The script as a whole *)

Section whole_script.

Lemma lineage_dirs w rp :
  dirs_closed w → is_dir w (rev rp) = true → ∀ q, q ∈ lineage rp → is_dir w q = true.
Proof.
  intros Hcl. induction rp as [|c rh IH]; intros Hd q Hq.
  - by apply elem_of_nil in Hq.
  - cbn [lineage] in Hq. apply elem_of_cons in Hq as [->|Hq]; [done|].
    apply IH; [|done]. rewrite <- (parent_rev_cons c rh). by apply Hcl.
Qed.

Lemma made_of_dir w rp : dirs_closed w → is_dir w (rev rp) = true → made w rp.
Proof.
  intros Hcl Hd. destruct rp as [|c rh]; [done|]. split; [done|]. right.
  unfold exists_path. rewrite <- (parent_rev_cons c rh), (Hcl _ Hd). done.
Qed.

Lemma made_mono w w' rp :
  (∀ q, is_dir w q = true → is_dir w' q = true) →
  (∀ q, is_file w q = true → is_file w' q = true) →
  made w rp → made w' rp.
Proof.
  intros Hd Hf. destruct rp as [|c rh]; [done|]. intros [H1 H2]. split; [auto|].
  destruct H2 as [->|H2]; [by left | right].
  unfold exists_path in *. apply orb_true_iff in H2 as [?|?].
  - by rewrite Hd.
  - by rewrite (Hf (rev rh)), orb_true_r.
Qed.

Lemma makedirs_ok_inv d w w0 :
  makedirs d w = (w0, Ok tt) →
  d ≠ "" ∧ makedirs_rev (rev (resolve d)) w = (w0, Ok tt) ∧ made w0 (rev (resolve d)).
Proof.
  unfold makedirs. destruct (String.eqb_spec d "") as [->|Hd]; [done|].
  intros E. split_and!; [done | done | by eapply makedirs_rev_made].
Qed.

Lemma makedirs_again d w :
  d ≠ "" → made w (rev (resolve d)) → makedirs d w = (w, Ok tt).
Proof.
  intros Hd Hm. unfold makedirs.
  destruct (String.eqb_spec d "") as [->|_]; [done|]. by apply makedirs_rev_again.
Qed.

Lemma makedirs_succeeds d w :
  d ≠ "" → creatable w (rev (resolve d)) → ∃ w0, makedirs d w = (w0, Ok tt).
Proof.
  intros Hd Hc. unfold makedirs.
  destruct (String.eqb_spec d "") as [->|_]; [done|]. by apply makedirs_rev_succeeds.
Qed.

Lemma script_ok_inv d t w w' :
  script d t w = (w', Ok tt) →
  ∃ w0, makedirs d w = (w0, Ok tt) ∧ Forall (writable d w0) t ∧
        w' = World (dirs w0) (written d t (files w0)) (denied w0)
               ((trace w0 ++ flat_map (rule_events d) t) ++
                [Print (("✅ Successfully created rule files in " +:+ d) +:+ LF)]).
Proof.
  unfold script. intros E.
  apply bind_inv_ok in E as (w0 & [] & E0 & E).
  apply bind_inv_ok in E as (w1 & [] & E1 & E).
  exists w0. split; [done|]. split; [by eapply for_items_ok_inv|].
  apply for_items_ok in E1 as ->. by injection E as <-.
Qed.

Lemma script_success d t w w0 :
  makedirs d w = (w0, Ok tt) → Forall (writable d w0) t →
  script d t w =
    (World (dirs w0) (written d t (files w0)) (denied w0)
       ((trace w0 ++ flat_map (rule_events d) t) ++
        [Print (("✅ Successfully created rule files in " +:+ d) +:+ LF)]), Ok tt).
Proof.
  intros E0 Hall. unfold script.
  rewrite (bind_ok _ _ _ _ _ E0).
  by rewrite (bind_ok _ _ _ _ _ (for_items_success _ _ _ Hall)).
Qed.

Lemma opened_app_print (tr : list event) s :
  omap (λ e, match e with Open p => Some p | _ => None end) (tr ++ [Print s])
  = omap (λ e, match e with Open p => Some p | _ => None end) tr.
Proof. rewrite omap_app. cbn. by rewrite app_nil_r. Qed.

Lemma opened_dir_events P evs :
  Forall (dir_event P) evs →
  omap (λ e, match e with Open p => Some p | _ => None end) evs = [].
Proof.
  induction 1 as [|e evs He _ IH]; [done|]. by destruct e.
Qed.

Lemma stdout_dir_events P evs :
  Forall (dir_event P) evs →
  omap (λ e, match e with Print s => Some s | _ => None end) evs = [].
Proof.
  induction 1 as [|e evs He _ IH]; [done|]. by destruct e.
Qed.

Lemma stdout_file_events P evs :
  Forall (file_event P) evs →
  omap (λ e, match e with Print s => Some s | _ => None end) evs = [].
Proof.
  induction 1 as [|e evs He _ IH]; [done|]. by destruct e.
Qed.

Lemma opened_file_events P evs p :
  Forall (file_event P) evs →
  p ∈ omap (λ e, match e with Open p => Some p | _ => None end) evs → P p.
Proof.
  induction 1 as [|e evs He _ IH]; [by intros ?%elem_of_nil|].
  destruct e; cbn; auto. intros [->|?]%elem_of_cons; auto.
Qed.

Lemma makedirs_opened d w w0 r : makedirs d w = (w0, r) → opened w0 = opened w.
Proof.
  intros E. destruct (makes_only_makedirs d _ _ _ E) as (_ & _ & _ & _ & _ & evs & Ht & Hev).
  unfold opened. by rewrite Ht, omap_app, (opened_dir_events _ _ Hev), app_nil_r.
Qed.

Lemma makedirs_stdout d w w0 r : makedirs d w = (w0, r) → stdout w0 = stdout w.
Proof.
  intros E. destruct (makes_only_makedirs d _ _ _ E) as (_ & _ & _ & _ & _ & evs & Ht & Hev).
  unfold stdout. by rewrite Ht, omap_app, (stdout_dir_events _ _ Hev), app_nil_r.
Qed.

End whole_script.


Section whole_script_footprint.

Lemma is_dir_ext w1 w2 q : dirs w1 = dirs w2 → is_dir w1 q = is_dir w2 q.
Proof. unfold is_dir. by intros ->. Qed.

Lemma makedirs_is_dir_frame d w w0 r q :
  makedirs d w = (w0, r) → q ∉ lineage (rev (resolve d)) → is_dir w0 q = is_dir w q.
Proof.
  intros E Hq. destruct (makes_only_makedirs d _ _ _ E) as (_ & _ & Hup & Hnew & _).
  destruct (is_dir w q) eqn:Hw; [by apply Hup|].
  destruct (is_dir w0 q) eqn:Hw0; [|done].
  destruct (Hnew q Hw0); [congruence | done].
Qed.

Lemma makedirs_files d w w0 r : makedirs d w = (w0, r) → files w0 = files w.
Proof. intros E. by destruct (makes_only_makedirs d _ _ _ E) as (? & _). Qed.

Lemma makedirs_denied d w w0 r : makedirs d w = (w0, r) → denied w0 = denied w.
Proof. intros E. by destruct (makes_only_makedirs d _ _ _ E) as (_ & ? & _). Qed.

(** Whatever the outcome, the files opened are those of the table. *)
Lemma script_opened d t w w' r p :
  script d t w = (w', r) →
  p ∈ opened w' → p ∈ opened w ∨ p ∈ map (rule_path d) t.
Proof.
  unfold script, bind. destruct (makedirs d w) as [w0 [[]|e]] eqn:E0.
  - destruct (for_items d t w0) as [w1 [[]|e]] eqn:E1.
    + destruct (touches_only_for_items d t _ _ _ E1) as (_ & _ & _ & evs & Ht & Hev).
      intros [= <- <-]. unfold opened. cbn [trace].
      rewrite opened_app_print, Ht, omap_app. fold (opened w0).
      rewrite (makedirs_opened _ _ _ _ E0).
      intros [?|Hp]%elem_of_app; [by left | right].
      by apply (opened_file_events _ _ _ Hev).
    + destruct (touches_only_for_items d t _ _ _ E1) as (_ & _ & _ & evs & Ht & Hev).
      intros [= <- <-]. unfold opened. rewrite Ht, omap_app. fold (opened w0).
      rewrite (makedirs_opened _ _ _ _ E0).
      intros [?|Hp]%elem_of_app; [by left | right].
      by apply (opened_file_events _ _ _ Hev).
  - intros [= <- <-]. rewrite (makedirs_opened _ _ _ _ E0). by left.
Qed.

(** Whatever the outcome, only the files of the table and the lineage of
    the target directory are touched. *)
Lemma script_frame d t w w' r :
  script d t w = (w', r) →
  (∀ q, q ∉ map (rule_path d) t → files w' !! q = files w !! q) ∧
  (∀ q, q ∉ lineage (rev (resolve d)) → is_dir w' q = is_dir w q) ∧
  denied w' = denied w.
Proof.
  unfold script, bind. destruct (makedirs d w) as [w0 [[]|e]] eqn:E0; intros E.
  - assert (∃ w1 r1, for_items d t w0 = (w1, r1) ∧ dirs w' = dirs w1 ∧
                     files w' = files w1 ∧ denied w' = denied w1)
      as (w1 & r1 & E1 & Hd & Hf & Hn).
    { destruct (for_items d t w0) as [w1 [[]|e]] eqn:E1; injection E as <- <-;
        by eexists _, _. }
    destruct (touches_only_for_items d t _ _ _ E1) as (Hd1 & Hn1 & Hf1 & _).
    split_and!.
    + intros q Hq. by rewrite Hf, (Hf1 q Hq), (makedirs_files _ _ _ _ E0).
    + intros q Hq. rewrite <- (makedirs_is_dir_frame _ _ _ _ _ E0 Hq).
      apply is_dir_ext. congruence.
    + rewrite Hn, Hn1. by eapply makedirs_denied.
  - injection E as <- <-. split_and!.
    + intros q _. by rewrite (makedirs_files _ _ _ _ E0).
    + intros q Hq. by eapply makedirs_is_dir_frame.
    + by eapply makedirs_denied.
Qed.

Lemma script_ok_opened d t w w' :
  script d t w = (w', Ok tt) → opened w' = opened w ++ map (rule_path d) t.
Proof.
  intros (w0 & E0 & Hall & ->)%script_ok_inv.
  pose proof (opened_emitted_world d t w0) as Ho.
  unfold opened, emitted_world in *. cbn [trace] in *.
  rewrite opened_app_print, Ho. fold (opened w0).
  by rewrite (makedirs_opened _ _ _ _ E0).
Qed.

Lemma script_ok_files d t w w' :
  script d t w = (w', Ok tt) → files w' = written d t (files w).
Proof.
  intros (w0 & E0 & Hall & ->)%script_ok_inv. cbn [files].
  by rewrite (makedirs_files _ _ _ _ E0).
Qed.

Lemma ends_with_newline_app a c :
  c ≠ "" → ends_with_newline (a +:+ c) = ends_with_newline c.
Proof.
  intros Hc. induction a as [|x a IH]; [done|].
  rewrite append_cons. cbn [ends_with_newline].
  destruct (a +:+ c) eqn:E; [|done].
  destruct a; [done | discriminate].
Qed.

Lemma layout_suffix t ps d c : ∃ pre, layout t ps d c = pre +:+ c.
Proof. unfold layout. rewrite !append_assoc. by eexists. Qed.

Lemma ends_with_newline_layout t ps d c :
  ends_with_newline c = true → ends_with_newline (layout t ps d c) = true.
Proof.
  intros Hc. destruct (layout_suffix t ps d c) as [pre ->].
  rewrite ends_with_newline_app; [done|]. by intros ->.
Qed.

End whole_script_footprint.

(** ** The program on its own table *)

Section the_program.

Lemma rule_paths_of_rules :
  map (rule_path rules_dir) rules
  = map (λ k, [".cursor"; "rules"; k]) (map fst rules).
Proof. reflexivity. Qed.

Lemma rule_keys_NoDup : NoDup (map fst rules).
Proof. apply (bool_decide_unpack _). vm_compute. exact I. Qed.

Lemma rule_paths_NoDup : NoDup (map (rule_path rules_dir) rules).
Proof.
  rewrite rule_paths_of_rules. apply NoDup_fmap_2; [|apply rule_keys_NoDup].
  by intros k1 k2 [= ->].
Qed.

Lemma rule_paths_parent p :
  p ∈ map (rule_path rules_dir) rules → parent p = [".cursor"; "rules"].
Proof.
  rewrite rule_paths_of_rules. intros (k & -> & _)%list_elem_of_fmap. reflexivity.
Qed.

(** On an empty project the program runs to its end. *)
Lemma main_on_empty_world input :
  main input empty_world =
    (World (dirs (makedirs rules_dir empty_world).1)
           (written rules_dir rules ∅) ∅
           ((trace (makedirs rules_dir empty_world).1 ++
             flat_map (rule_events rules_dir) rules) ++
            [Print (("✅ Successfully created rule files in " +:+ rules_dir) +:+ LF)]),
     Ok tt).
Proof.
  assert (makedirs rules_dir empty_world
          = ((makedirs rules_dir empty_world).1, Ok tt)) as Hmk
    by (vm_compute; reflexivity).
  unfold main. rewrite (script_success _ rules _ _ Hmk).
  - by rewrite (makedirs_files _ _ _ _ Hmk), (makedirs_denied _ _ _ _ Hmk).
  - unfold rules.
    repeat (apply Forall_cons; split;
            [split; [vm_compute; reflexivity | split; eexists; reflexivity]|]).
    apply Forall_nil_2.
Qed.

End the_program.

(** * The claims *)

(** ** C1: the layout of an emitted file *)

(** C1.  After a successful emission over a table no two records of which
    name the same file, the file of every record [(k, r)] of the table, at
    [rules_dir/k], holds exactly: the line [Rule Type: <rule_type>] and a
    blank line; when the record has file patterns, the line
    [File Pattern Matches: <patterns joined by ", ">] and a blank line; when
    it has a description, the line [Description: <description>] and a blank
    line; then the content, verbatim. *)
Theorem C1_file_layout d table w w' k r :
  script d table w = (w', Ok tt) →
  NoDup (map (rule_path d) table) →
  (k, r) ∈ table →
  ∃ t c, rule_type r = Some t ∧ content r = Some c ∧
    files w' !! resolve (os_path_join d k) =
      Some (layout t (file_patterns r) (description r) c).
Proof.
  intros (w0 & E0 & Hall & ->)%script_ok_inv Hnd Hin. cbn [files].
  rewrite Forall_forall in Hall.
  destruct (Hall _ Hin) as (_ & [t Ht] & [c Hc]). cbn [snd] in Ht, Hc.
  exists t, c. split_and!; [done | done |].
  change (resolve (os_path_join d k)) with (rule_path d (k, r)).
  rewrite (written_in _ _ _ _ _ Hnd Hin). unfold rule_text. by rewrite Ht, Hc.
Qed.

(** The first example scenario of the specification: the record
    [{filename: "x.mdc", rule_type: "Always", content: "hello\n"}] yields
    exactly the bytes ["Rule Type: Always\n\nhello\n"]. *)
Lemma C1_file_layout_witness :
  script "targetDir" example_table empty_world
    = ((script "targetDir" example_table empty_world).1, Ok tt) ∧
  NoDup (map (rule_path "targetDir") example_table) ∧
  ("x.mdc", example_rule) ∈ example_table ∧
  files (script "targetDir" example_table empty_world).1 !! ["targetDir"; "x.mdc"]
    = Some "Rule Type: Always

hello
".
Proof.
  assert (script "targetDir" example_table empty_world
          = ((script "targetDir" example_table empty_world).1, Ok tt)) as Hrun
    by run_script.
  assert (NoDup (map (rule_path "targetDir") example_table)) as Hnd
    by (apply (bool_decide_unpack _); vm_compute; exact I).
  assert (("x.mdc", example_rule) ∈ example_table) as Hin
    by (apply elem_of_cons; left; reflexivity).
  split_and!; [exact Hrun | exact Hnd | exact Hin |].
  destruct (C1_file_layout _ _ _ _ _ _ Hrun Hnd Hin) as (t & c & Ht & Hc & Hf).
  injection Ht as <-. injection Hc as <-. exact Hf.
Defined.

(** The second scenario: with [file_patterns: ["*.py", "tests/**"]] the
    text ["File Pattern Matches: *.py, tests/**\n\n"] comes right after the
    rule type line. *)
Example example_with_patterns :
  files (script "targetDir" example_table_patterns empty_world).1 !! ["targetDir"; "x.mdc"]
    = Some "Rule Type: Always

File Pattern Matches: *.py, tests/**

hello
".
Proof. vm_compute. reflexivity. Qed.

(** ** C3: a file for every key *)

(** C3.  After a successful emission, every record [(k, r)] of the table
    has its file: a regular file exists at [rules_dir/k]; and when [k] is a
    file name proper, that file is the entry named exactly [k] of the
    target directory. *)
Theorem C3_file_for_every_key d table w w' k r :
  script d table w = (w', Ok tt) →
  (k, r) ∈ table →
  is_file w' (resolve (os_path_join d k)) = true ∧
  (plain_name k = true → resolve (os_path_join d k) = resolve d ++ [k]).
Proof.
  intros (w0 & E0 & Hall & ->)%script_ok_inv Hin.
  split; [|apply resolve_join_plain].
  unfold is_file. cbn [files]. apply bool_decide_eq_true.
  assert (rule_path d (k, r) ∈ map (rule_path d) table) as Hp.
  { apply list_elem_of_fmap. by exists (k, r). }
  destruct (written_is_Some d table (files w0) _ Hp) as (item & _ & _ & Hs).
  change (resolve (os_path_join d k)) with (rule_path d (k, r)). by rewrite Hs.
Qed.

Lemma C3_file_for_every_key_witness :
  script "targetDir" example_table used_world
    = ((script "targetDir" example_table used_world).1, Ok tt) ∧
  ("x.mdc", example_rule) ∈ example_table ∧
  is_file (script "targetDir" example_table used_world).1 ["targetDir"; "x.mdc"] = true ∧
  (plain_name "x.mdc" = true →
   resolve (os_path_join "targetDir" "x.mdc") = resolve "targetDir" ++ ["x.mdc"]).
Proof.
  assert (script "targetDir" example_table used_world
          = ((script "targetDir" example_table used_world).1, Ok tt)) as Hrun
    by run_script.
  assert (("x.mdc", example_rule) ∈ example_table) as Hin
    by (apply elem_of_cons; left; reflexivity).
  split_and!; [exact Hrun | exact Hin | |];
    apply (C3_file_for_every_key _ _ _ _ _ _ Hrun Hin).
Defined.

(** ** C9: the confirmation *)

(** C9.  A successful run prints exactly one line, the confirmation, and
    that line names the target directory. *)
Theorem C9_one_confirmation d table w w' :
  script d table w = (w', Ok tt) →
  stdout w' = stdout w ++ ["✅ Successfully created rule files in " +:+ d +:+ LF].
Proof.
  intros (w0 & E0 & Hall & ->)%script_ok_inv.
  pose proof (stdout_emitted_world d table w0) as Hs.
  unfold stdout, emitted_world in *. cbn [trace] in *.
  rewrite omap_app, Hs. cbn [omap]. fold (stdout w0).
  by rewrite (makedirs_stdout _ _ _ _ E0), append_assoc.
Qed.

Lemma C9_one_confirmation_witness :
  script "targetDir" example_table used_world
    = ((script "targetDir" example_table used_world).1, Ok tt) ∧
  stdout (script "targetDir" example_table used_world).1 =
    ["✅ Successfully created rule files in targetDir
"].
Proof.
  assert (script "targetDir" example_table used_world
          = ((script "targetDir" example_table used_world).1, Ok tt)) as Hrun
    by run_script.
  split; [exact Hrun|].
  rewrite (C9_one_confirmation _ _ _ _ Hrun). reflexivity.
Defined.

(** ** C2: determinism and idempotence *)

(** C2.  The bytes of every emitted file are a function of the table
    alone: two successful runs over the same table, from whatever prior
    states, leave the same content in the file of every record.  And a
    second run right after a successful one succeeds too and leaves the
    file system as the first one left it. *)
Theorem C2_deterministic_idempotent d table w1 w1' w2 w2' :
  script d table w1 = (w1', Ok tt) →
  script d table w2 = (w2', Ok tt) →
  (∀ item, item ∈ table →
     is_Some (files w1' !! rule_path d item) ∧
     files w1' !! rule_path d item = files w2' !! rule_path d item) ∧
  ∃ w1'', script d table w1' = (w1'', Ok tt) ∧
          dirs w1'' = dirs w1' ∧ files w1'' = files w1' ∧ denied w1'' = denied w1'.
Proof.
  intros E1 E2. split.
  - intros item Hin.
    rewrite (script_ok_files _ _ _ _ E1), (script_ok_files _ _ _ _ E2).
    assert (rule_path d item ∈ map (rule_path d) table) as Hp.
    { apply list_elem_of_fmap. by exists item. }
    split; [|by apply written_base_indep].
    destruct (written_is_Some d table (files w1) _ Hp) as (it & _ & _ & ->). by eexists.
  - apply script_ok_inv in E1 as (w0 & E0 & Hall & ->).
    apply makedirs_ok_inv in E0 as (Hd & _ & Hmade).
    set (w' := World _ _ _ _).
    assert (makedirs d w' = (w', Ok tt)) as E0'.
    { apply makedirs_again; [done|]. eapply made_mono; [| |exact Hmade].
      - intros q. by rewrite (is_dir_ext w' w0).
      - intros q. unfold is_file. subst w'. cbn [files]. rewrite !bool_decide_eq_true.
        intros Hsome.
        destruct (decide (q ∈ map (rule_path d) table)) as [Hin|Hnin].
        + destruct (written_is_Some d table (files w0) _ Hin) as (it & _ & _ & ->).
          by eexists.
        + by rewrite written_notin. }
    eexists. split.
    + apply (script_success _ _ _ _ E0').
      eapply Forall_impl; [exact Hall|]. intros item. by apply writable_ext.
    + subst w'. cbn [dirs files denied]. by rewrite written_idemp.
Qed.

Lemma C2_deterministic_idempotent_witness :
  script "targetDir" example_table empty_world
    = ((script "targetDir" example_table empty_world).1, Ok tt) ∧
  script "targetDir" example_table used_world
    = ((script "targetDir" example_table used_world).1, Ok tt) ∧
  files (script "targetDir" example_table empty_world).1 !! ["targetDir"; "x.mdc"]
    = files (script "targetDir" example_table used_world).1 !! ["targetDir"; "x.mdc"] ∧
  ∃ w'', script "targetDir" example_table (script "targetDir" example_table empty_world).1
           = (w'', Ok tt) ∧
         files w'' = files (script "targetDir" example_table empty_world).1.
Proof.
  assert (script "targetDir" example_table empty_world
          = ((script "targetDir" example_table empty_world).1, Ok tt)) as Hrun1
    by run_script.
  assert (script "targetDir" example_table used_world
          = ((script "targetDir" example_table used_world).1, Ok tt)) as Hrun2
    by run_script.
  destruct (C2_deterministic_idempotent _ _ _ _ _ _ Hrun1 Hrun2)
    as (Hsame & w'' & Hagain & _ & Hfiles & _).
  split_and!; [exact Hrun1 | exact Hrun2 | | exists w''; split; [exact Hagain | exact Hfiles]].
  apply (Hsame ("x.mdc", example_rule)). apply elem_of_cons. by left.
Defined.

(** ** C8: the empty table *)

(** C8.  With an empty table the emission is not an error: once the target
    directory is made the script runs to its end, having written no file;
    nothing changed but the directories [os.makedirs] made (and the
    confirmation was printed). *)
Theorem C8_empty_table d w w0 :
  makedirs d w = (w0, Ok tt) →
  script d [] w =
    (World (dirs w0) (files w0) (denied w0)
       (trace w0 ++ [Print ("✅ Successfully created rule files in " +:+ d +:+ LF)]),
     Ok tt) ∧
  files w0 = files w ∧ denied w0 = denied w ∧ opened w0 = opened w ∧
  is_dir w0 (resolve d) = true ∧
  ∀ q, q ∉ lineage (rev (resolve d)) → is_dir w0 q = is_dir w q.
Proof.
  intros E0. split_and!.
  - rewrite (script_success d [] w w0 E0 (List.Forall_nil _)).
    cbn [written foldl flat_map]. by rewrite app_nil_r, append_assoc.
  - by eapply makedirs_files.
  - by eapply makedirs_denied.
  - by eapply makedirs_opened.
  - apply makedirs_ok_inv in E0 as (Hd & _ & Hmade).
    destruct (rev (resolve d)) as [|c rh] eqn:Hr.
    + apply (f_equal (@rev string)) in Hr. rewrite rev_involutive in Hr.
      by rewrite Hr.
    + rewrite <- (rev_involutive (resolve d)), Hr. by destruct Hmade.
  - intros q Hq. by eapply makedirs_is_dir_frame.
Qed.

Lemma C8_empty_table_witness :
  makedirs "targetDir" used_world = ((makedirs "targetDir" used_world).1, Ok tt) ∧
  (script "targetDir" [] used_world).2 = Ok tt ∧
  files (script "targetDir" [] used_world).1 = files used_world ∧
  opened (script "targetDir" [] used_world).1 = [] ∧
  is_dir (script "targetDir" [] used_world).1 ["targetDir"] = true.
Proof.
  assert (makedirs "targetDir" used_world
          = ((makedirs "targetDir" used_world).1, Ok tt)) as Hmk by run_script.
  destruct (C8_empty_table _ _ _ Hmk) as (Hrun & Hf & _ & Ho & Hd & _).
  rewrite Hrun. cbn [fst snd files]. split_and!; [exact Hmk | reflexivity | exact Hf | | exact Hd].
  unfold opened in *. cbn [trace]. by rewrite opened_app_print, Ho.
Defined.

(** ** C4: what a run returns, and the first failure *)

Section on_a_device.

Variable dev : device.



Lemma bindF_ok {A B} (m : F A) (k : A → F B) b w w1 b1 a :
  m b w = (w1, b1, Ok a) → bindF m k b w = k a b1 w1.
Proof. unfold bindF. by intros ->. Qed.


Lemma bindF_getitem_some {B} key t (k : string → F B) b w :
  bindF (liftF (getitem key (Some t))) k b w = k t b w.
Proof. reflexivity. Qed.















End on_a_device.

(** A device that takes no data for the file [p]. *)
Section a_full_device.

Variable dev : device.
Variable p : path.
Hypothesis encodes_all : ∀ s, encodable dev s = true.
Hypothesis full : ∀ w data, data ≠ "" → is_Some (refuses dev w p data).









End a_full_device.

(** On a device that takes every name and all data at once, the loop is
    the loop of the definitions without a device. *)
Section a_transparent_device.

Variable dev : device.
Hypothesis encodes_all : ∀ s, encodable dev s = true.
Hypothesis holds_nothing : ∀ s, holds_back dev s = false.
Hypothesis takes_all : ∀ w f data, refuses dev w f data = None.

Lemma append_literal_nonempty c (a b : string) : String c a +:+ b ≠ "".
Proof. by rewrite append_cons. Qed.

Lemma long_component_fits w before rest :
  Forall (λ c, String.length c ≤ name_max dev) rest →
  long_component dev w before rest = false.
Proof.
  revert before. induction rest as [|c rest IH]; intros before Hall; [done|].
  apply Forall_cons in Hall as [Hc Hall]. cbn [long_component].
  destruct (Nat.ltb_spec (name_max dev) (String.length c)); [lia|]. by apply IH.
Qed.

Lemma open_dev_fits name w : name_fits dev name → open_dev dev name w = open_w name w.
Proof.
  intros (Hnul & Hlen & Hall). unfold open_dev. rewrite Hnul.
  destruct (Nat.leb_spec (path_max dev) (String.length name)); [lia|].
  by rewrite (long_component_fits _ _ _ Hall).
Qed.

Lemma f_write_dev_through f data w :
  data ≠ "" → f_write_dev dev f data "" w = ((f_write f data w).1, "", Ok tt).
Proof.
  intros Hd. unfold f_write_dev, flush, store. rewrite encodes_all.
  change ("" +:+ data) with data. rewrite holds_nothing, takes_all.
  by destruct (String.eqb_spec data "").
Qed.

Lemma with_file_transparent f r w :
  content r ≠ Some "" →
  with_file dev f (rule_body dev f r) w
  = (t <- getitem "rule_type" (rule_type r) ;;
     f_write f ("Rule Type: " +:+ t +:+ LF +:+ LF) ;;
     match file_patterns r with
     | Some patterns =>
         f_write f ("File Pattern Matches: " +:+ str_join ", " patterns +:+ LF +:+ LF)
     | None => ret tt
     end ;;
     match description r with
     | Some d => f_write f ("Description: " +:+ d +:+ LF +:+ LF)
     | None => ret tt
     end ;;
     c <- getitem "content" (content r) ;;
     f_write f c) w.
Proof.
  intros Hc. unfold with_file, rule_body.
  destruct r as [[t|] ps ds c]; cbn [rule_type file_patterns description content] in *;
    [|reflexivity].
  rewrite bindF_getitem_some.
  rewrite (bindF_ok _ _ _ _ _ _ _ (f_write_dev_through f _ w (append_literal_nonempty _ _ _))).
  unfold bind at 1. cbn [getitem ret]. unfold bind at 1.
  set (w1 := (f_write f _ w).1).
  change (f_write f ("Rule Type: " +:+ t +:+ LF +:+ LF) w) with (w1, @Ok unit tt).
  cbv iota beta.
  assert (∀ (k : unit → F unit) (k' : unit → M unit) data w0,
            data ≠ "" →
            (∀ w', match k tt "" w' with
                   | (w2, pending, r) =>
                       match flush dev f pending w2 with
                       | (w3, _, Ok _) => (w3, r)
                       | (w3, _, Raise e) => (w3, Raise e)
                       end
                   end = k' tt w') →
            match bindF (f_write_dev dev f data) k "" w0 with
            | (w2, pending, r) =>
                match flush dev f pending w2 with
                | (w3, _, Ok _) => (w3, r)
                | (w3, _, Raise e) => (w3, Raise e)
                end
            end = bind (f_write f data) k' w0) as Hstep.
  { intros k k' data w0 Hd Hk.
    rewrite (bindF_ok _ _ _ _ _ _ _ (f_write_dev_through f _ w0 Hd)).
    unfold bind. apply Hk. }
  assert (∀ w0,
            match (c0 <- liftF (getitem "content" c) ;; f_write_dev dev f c0)%W "" w0 with
            | (w2, pending, r) =>
                match flush dev f pending w2 with
                | (w3, _, Ok _) => (w3, r)
                | (w3, _, Raise e) => (w3, Raise e)
                end
            end = (c0 <- getitem "content" c ;; f_write f c0) w0) as Hlast.
  { intros w0. destruct c as [c|]; [|reflexivity].
    rewrite bindF_getitem_some.
    rewrite (f_write_dev_through f c w0) by congruence. reflexivity. }
  destruct ps as [ps|], ds as [ds|].
  - apply Hstep; [apply append_literal_nonempty|]. intros w2.
    apply Hstep; [apply append_literal_nonempty|]. intros w3. apply Hlast.
  - apply Hstep; [apply append_literal_nonempty|]. intros w2. apply Hlast.
  - apply Hstep; [apply append_literal_nonempty|]. intros w2. apply Hlast.
  - apply Hlast.
Qed.

Lemma write_rule_dev_transparent d k r w :
  name_fits dev (os_path_join d k) → content r ≠ Some "" →
  write_rule_dev dev d k r w = write_rule d k r w.
Proof.
  intros Hfit Hc. unfold write_rule_dev, write_rule.
  destruct (open_w (os_path_join d k) w) as [w1 [f|e]] eqn:Eo.
  - rewrite (bind_ok _ _ _ _ _ Eo).
    rewrite <- (open_dev_fits _ _ Hfit) in Eo. rewrite (bind_ok _ _ _ _ _ Eo).
    by apply with_file_transparent.
  - rewrite (bind_raise _ _ _ _ _ Eo).
    rewrite <- (open_dev_fits _ _ Hfit) in Eo. by rewrite (bind_raise _ _ _ _ _ Eo).
Qed.

Lemma for_items_dev_transparent d items w :
  Forall (λ item, name_fits dev (os_path_join d item.1) ∧ content item.2 ≠ Some "") items →
  for_items_dev dev d items w = for_items d items w.
Proof.
  revert w. induction items as [|[k r] items IH]; intros w Hall; [done|].
  apply Forall_cons in Hall as [[Hfit Hc] Hall].
  cbn [for_items_dev for_items]. cbn [fst snd] in Hfit, Hc.
  destruct (write_rule d k r w) as [w1 [[]|e]] eqn:E.
  - rewrite (bind_ok _ _ _ _ _ E).
    rewrite <- (write_rule_dev_transparent _ _ _ _ Hfit Hc) in E.
    rewrite (bind_ok _ _ _ _ _ E). by apply IH.
  - rewrite (bind_raise _ _ _ _ _ E).
    rewrite <- (write_rule_dev_transparent _ _ _ _ Hfit Hc) in E.
    by rewrite (bind_raise _ _ _ _ _ E).
Qed.

Lemma script_dev_transparent d items w :
  Forall (λ item, name_fits dev (os_path_join d item.1) ∧ content item.2 ≠ Some "") items →
  script_dev dev d items w = script d items w.
Proof.
  intros Hall. unfold script_dev, script.
  destruct (makedirs d w) as [w0 [[]|e]] eqn:E0.
  - rewrite !(bind_ok _ _ _ _ _ E0). unfold bind.
    by rewrite (for_items_dev_transparent _ _ _ Hall).
  - by rewrite !(bind_raise _ _ _ _ _ E0).
Qed.

End a_transparent_device.





(** ** C5: the target directory comes first *)

(** C5.  In a file system where every directory has its parent, for a
    target directory other than the empty string: [os.makedirs] changes
    nothing and does not fail when the directory is already there; when no
    regular file and no denial stands in the way it succeeds and leaves the
    directory and all its ancestors in place, touching no file; and in every
    run of the script it comes first: no file is opened before it is done,
    no directory is made after it, and when it fails the run ends there. *)
Theorem C5_directory_first d table w :
  d ≠ "" → dirs_closed w →
  (is_dir w (resolve d) = true → makedirs d w = (w, Ok tt)) ∧
  (creatable w (rev (resolve d)) →
     ∃ w0, makedirs d w = (w0, Ok tt) ∧ files w0 = files w ∧
           ∀ q, q ∈ lineage (rev (resolve d)) → is_dir w0 q = true) ∧
  (∀ w' r, script d table w = (w', r) →
     ∃ w0 r0 later,
       makedirs d w = (w0, r0) ∧ opened w0 = opened w ∧
       trace w' = trace w0 ++ later ∧ Forall (λ e, ∀ p, e ≠ Mkdir p) later ∧
       (∀ e, r0 = Raise e → w' = w0 ∧ r = Raise e)).
Proof.
  intros Hd Hcl. split_and!.
  - intros Hdir. apply makedirs_again; [done|]. apply made_of_dir; [done|].
    by rewrite rev_involutive.
  - intros Hcr. destruct (makedirs_succeeds d w Hd Hcr) as [w0 E0]. exists w0.
    split_and!; [done | by eapply makedirs_files |].
    destruct (makes_only_makedirs d _ _ _ E0) as (_ & _ & _ & _ & Hcl0 & _).
    apply makedirs_ok_inv in E0 as (_ & _ & Hmade).
    apply lineage_dirs; [by apply Hcl0|].
    destruct (rev (resolve d)) as [|c rh]; [done | by destruct Hmade].
  - intros w' r. unfold script, bind.
    destruct (makedirs d w) as [w0 [[]|e]] eqn:E0.
    + destruct (for_items d table w0) as [w1 [[]|e]] eqn:E1;
        destruct (touches_only_for_items d table _ _ _ E1)
          as (_ & _ & _ & evs & Ht & Hev);
        intros [= <- <-].
      * exists w0, (Ok tt), (evs ++ [Print (("✅ Successfully created rule files in " +:+ d) +:+ LF)]).
        cbn [trace]. rewrite Ht, <- app_assoc.
        split_and!; [done | by eapply makedirs_opened | done | | done].
        apply Forall_app. split; [|by repeat constructor].
        eapply Forall_impl; [exact Hev|]. by intros [].
      * exists w0, (Ok tt), evs.
        split_and!; [done | by eapply makedirs_opened | done | | done].
        eapply Forall_impl; [exact Hev|]. by intros [].
    + intros [= <- <-]. exists w0, (Raise e), [].
      rewrite app_nil_r.
      split_and!; [done | by eapply makedirs_opened | done | constructor |].
      by intros ? [= <-].
Qed.

Lemma used_world_closed : dirs_closed used_world.
Proof.
  intros p. unfold is_dir, used_world. cbn [dirs].
  rewrite !bool_decide_eq_true, !elem_of_union, !elem_of_singleton.
  intros [->|[->|[->| ->]]]; cbn; auto.
Qed.

Lemma empty_world_closed : dirs_closed empty_world.
Proof.
  intros p. unfold is_dir, empty_world. cbn [dirs].
  rewrite !bool_decide_eq_true. intros [->|[->|[]%elem_of_empty]]; cbn; auto.
Qed.

Lemma empty_world_creatable rp : creatable empty_world rp.
Proof. intros q _. split; [reflexivity | apply not_elem_of_empty]. Qed.

(** The directory is there already in [used_world] and is left alone; it is
    absent from [empty_world] and is made there with its parent. *)
Lemma C5_directory_first_witness :
  rules_dir ≠ "" ∧ dirs_closed used_world ∧ dirs_closed empty_world ∧
  is_dir used_world (resolve rules_dir) = true ∧
  creatable empty_world (rev (resolve rules_dir)) ∧
  makedirs rules_dir used_world = (used_world, Ok tt) ∧
  ∃ w0, makedirs rules_dir empty_world = (w0, Ok tt) ∧
        is_dir w0 [".cursor"] = true ∧ is_dir w0 [".cursor"; "rules"] = true.
Proof.
  assert (rules_dir ≠ "") as Hd by discriminate.
  assert (is_dir used_world (resolve rules_dir) = true) as Hdir
    by (vm_compute; reflexivity).
  split_and!; [exact Hd | exact used_world_closed | exact empty_world_closed
              | exact Hdir | apply empty_world_creatable | |].
  - exact (proj1 (C5_directory_first rules_dir rules used_world Hd used_world_closed)
             Hdir).
  - destruct (proj1 (proj2 (C5_directory_first rules_dir rules empty_world Hd
                              empty_world_closed))
                (empty_world_creatable _)) as (w0 & Hmk & _ & Hall).
    exists w0. split_and!; [exact Hmk | |]; apply Hall; cbn [lineage rev app];
      repeat (apply elem_of_cons; first [left; reflexivity | right]).
Defined.

(** ** C6: where the files go *)

(** C6, as the code has it.  The target directory is not configurable: the
    program reads neither its arguments nor its environment, it is the
    module body run with the constant [".cursor/rules"], and every file it
    opens is an entry of that directory. *)
Theorem C6_fixed_directory input w w' r :
  main input w = (w', r) →
  main input w = script ".cursor/rules" rules w ∧
  (∀ other, main other w = main input w) ∧
  ∀ p, p ∈ opened w' → p ∈ opened w ∨ parent p = [".cursor"; "rules"].
Proof.
  intros E. split_and!; [done | done |].
  intros p Hp. destruct (script_opened _ _ _ _ _ _ E Hp) as [?|Hin]; [by left | right].
  by apply rule_paths_parent.
Qed.

Lemma C6_fixed_directory_witness :
  main no_input empty_world
    = ((main no_input empty_world).1, (main no_input empty_world).2) ∧
  main (ProcessInput ["cursor_rules_setup.py"; "out"] {[ "RULES_DIR" := "out" ]})
       empty_world
    = main no_input empty_world.
Proof.
  assert (main no_input empty_world
          = ((main no_input empty_world).1, (main no_input empty_world).2)) as Hrun
    by (by destruct (main no_input empty_world)).
  split; [exact Hrun|].
  exact (proj1 (proj2 (C6_fixed_directory _ _ _ _ Hrun)) _).
Defined.

(** C6 as the specification words it does not hold: whatever the program
    is started with, on an empty project it leaves [always.mdc] in no
    directory but [.cursor/rules]. *)
Lemma C6_counterexample :
  ¬ ∃ input d,
      resolve d ≠ resolve rules_dir ∧
      is_file (main input empty_world).1 (resolve d ++ ["always.mdc"]) = true.
Proof.
  intros (input & d & Hne & Hfile). rewrite main_on_empty_world in Hfile.
  unfold is_file in Hfile. cbn [fst files] in Hfile.
  apply bool_decide_eq_true in Hfile.
  destruct (decide (resolve d ++ ["always.mdc"] ∈ map (rule_path rules_dir) rules))
    as [Hin|Hnin].
  - apply rule_paths_parent in Hin. unfold parent in Hin.
    rewrite removelast_last in Hin. by apply Hne.
  - rewrite written_notin in Hfile by done. rewrite lookup_empty in Hfile.
    by destruct Hfile.
Qed.

(** ** C7: overwriting, and what is left alone *)

(** C7, as the code has it.  After a successful emission over a table no
    two records of which name the same file, the file of every record holds
    the rendering of the record whatever was at that path before.  And
    whatever the outcome of a run: every file that is not the file of a
    record is as it was; a path that is neither the target directory nor
    one of its ancestors is a directory after the run exactly when it was
    one before; the denials are unchanged.  The missing ancestors of the
    target directory are made along with it. *)
Theorem C7_overwrite_and_frame d table w w' r :
  script d table w = (w', r) →
  (r = Ok tt → NoDup (map (rule_path d) table) →
   ∀ k rl, (k, rl) ∈ table →
     ∃ t c, rule_type rl = Some t ∧ content rl = Some c ∧
       files w' !! rule_path d (k, rl)
         = Some (layout t (file_patterns rl) (description rl) c)) ∧
  (∀ q, q ∉ map (rule_path d) table → files w' !! q = files w !! q) ∧
  (∀ q, q ∉ lineage (rev (resolve d)) → is_dir w' q = is_dir w q) ∧
  denied w' = denied w.
Proof.
  intros E. split; [|by eapply script_frame].
  intros -> Hnd k rl Hin.
  apply script_ok_inv in E as (w0 & E0 & Hall & ->).
  rewrite Forall_forall in Hall.
  destruct (Hall _ Hin) as (_ & [t Ht] & [c Hc]). cbn [snd] in Ht, Hc.
  exists t, c. split_and!; [done | done |]. cbn [files].
  rewrite (written_in _ _ _ _ _ Hnd Hin). unfold rule_text. by rewrite Ht, Hc.
Qed.

(** The stale rule file is replaced, the unrelated file is left alone. *)
Lemma C7_overwrite_and_frame_witness :
  script ".cursor/rules" [("always.mdc", example_rule)] used_world
    = ((script ".cursor/rules" [("always.mdc", example_rule)] used_world).1, Ok tt) ∧
  NoDup (map (rule_path ".cursor/rules") [("always.mdc", example_rule)]) ∧
  used_world.(files) !! [".cursor"; "rules"; "always.mdc"] = Some "stale text" ∧
  files (script ".cursor/rules" [("always.mdc", example_rule)] used_world).1
    !! [".cursor"; "rules"; "always.mdc"] = Some "Rule Type: Always

hello
" ∧
  files (script ".cursor/rules" [("always.mdc", example_rule)] used_world).1
    !! ["README.md"] = Some "readme".
Proof.
  assert (script ".cursor/rules" [("always.mdc", example_rule)] used_world
          = ((script ".cursor/rules" [("always.mdc", example_rule)] used_world).1,
             Ok tt)) as Hrun by run_script.
  assert (NoDup (map (rule_path ".cursor/rules") [("always.mdc", example_rule)]))
    as Hnd by (apply (bool_decide_unpack _); vm_compute; exact I).
  destruct (C7_overwrite_and_frame _ _ _ _ _ Hrun) as (Hnew & Hold & _ & _).
  split_and!; [exact Hrun | exact Hnd | reflexivity | |].
  - destruct (Hnew eq_refl Hnd "always.mdc" example_rule) as (t & c & Ht & Hc & Hf).
    { apply elem_of_cons. by left. }
    injection Ht as <-. injection Hc as <-. exact Hf.
  - rewrite (Hold ["README.md"]); [reflexivity|].
    apply (bool_decide_unpack _). vm_compute. exact I.
Defined.

(** C7 as the specification words it does not hold: on an empty project
    the run also makes the directory [.cursor], which is neither the target
    directory nor a file of the table. *)
Lemma C7_counterexample :
  is_dir empty_world [".cursor"] = false ∧
  is_dir (main no_input empty_world).1 [".cursor"] = true ∧
  [".cursor"] ≠ resolve rules_dir ∧
  [".cursor"] ∉ map (rule_path rules_dir) rules.
Proof.
  split_and!.
  - reflexivity.
  - rewrite main_on_empty_world. cbn [fst]. vm_compute. reflexivity.
  - discriminate.
  - intros Hin%rule_paths_parent. discriminate Hin.
Qed.

(** ** C10: the table of the program *)

(** C10.  In the table of the program the keys are pairwise distinct, and
    every key is a file name proper (not empty, no separator) whose record
    has a rule type and a content that ends with a newline; there are 7
    records.  So a successful run opens exactly the 7 files
    [.cursor/rules/<key>], in the order of the table and each once, these
    are 7 distinct entries of the rules directory, and each of them ends
    with a newline after the run. *)
Theorem C10_table_invariant :
  NoDup (map fst rules) ∧
  Forall (λ item, plain_name item.1 = true ∧
                  ∃ t c, rule_type item.2 = Some t ∧ content item.2 = Some c ∧
                         ends_with_newline c = true) rules ∧
  length rules = 7 ∧
  NoDup (map (λ k, [".cursor"; "rules"; k]) (map fst rules)) ∧
  ∀ input w w', main input w = (w', Ok tt) →
    opened w' = opened w ++ map (λ k, [".cursor"; "rules"; k]) (map fst rules) ∧
    Forall (λ k, ∃ s, files w' !! [".cursor"; "rules"; k] = Some s ∧
                      ends_with_newline s = true) (map fst rules).
Proof.
  assert (Forall (λ item, plain_name item.1 = true ∧
                  ∃ t c, rule_type item.2 = Some t ∧ content item.2 = Some c ∧
                         ends_with_newline c = true) rules) as Hinv.
  { unfold rules.
    repeat (apply Forall_cons; split;
            [split; [vm_compute; reflexivity
                    | eexists _, _; split_and!;
                      [reflexivity | reflexivity | vm_compute; reflexivity]]|]).
    apply Forall_nil_2. }
  split_and!; [apply rule_keys_NoDup | exact Hinv | reflexivity | |].
  { rewrite <- rule_paths_of_rules. apply rule_paths_NoDup. }
  intros input w w' E. unfold main in E. split.
  - rewrite (script_ok_opened _ _ _ _ E). by rewrite rule_paths_of_rules.
  - rewrite (script_ok_files _ _ _ _ E). apply Forall_fmap, Forall_forall.
    intros [k r] Hin. rewrite Forall_forall in Hinv.
    destruct (Hinv _ Hin) as (Hplain & t & c & Ht & Hc & Hnl). cbn [fst snd] in *.
    exists (rule_text r). split.
    + rewrite <- (written_in rules_dir rules (files w) k r rule_paths_NoDup Hin).
      unfold rule_path. cbn [fst]. by rewrite (resolve_join_plain _ _ Hplain).
    + unfold rule_text. rewrite Hc. cbn [default from_option id].
      by apply ends_with_newline_layout.
Qed.

Lemma C10_table_invariant_witness :
  main no_input empty_world = ((main no_input empty_world).1, Ok tt) ∧
  opened (main no_input empty_world).1 =
    [ [".cursor"; "rules"; "always.mdc"];
      [".cursor"; "rules"; "testing.mdc"];
      [".cursor"; "rules"; "git-rules.mdc"];
      [".cursor"; "rules"; "build-planning.mdc"];
      [".cursor"; "rules"; "context-passing.mdc"];
      [".cursor"; "rules"; "manual.mdc"];
      [".cursor"; "rules"; "agent-requested.mdc"] ].
Proof.
  assert (main no_input empty_world = ((main no_input empty_world).1, Ok tt)) as Hrun
    by (by rewrite main_on_empty_world).
  split; [exact Hrun|].
  destruct C10_table_invariant as (_ & _ & _ & _ & Hmain).
  destruct (Hmain _ _ _ Hrun) as [Hopened _].
  rewrite Hopened. reflexivity.
Defined.

(** * Further properties of the script *)

(** ** A record without one of its mandatory keys *)

Section missing_keys.


Lemma write_rule_no_content d k r w t :
  can_open w (os_path_join d k) = true →
  rule_type r = Some t → content r = None →
  write_rule d k r w =
    (World (dirs w)
           (<[rule_path d (k, r) := layout t (file_patterns r) (description r) ""]>
              (files w))
           (denied w)
           (trace w ++ Open (rule_path d (k, r))
                       :: map (Write (rule_path d (k, r))) (header_chunks r)),
     Raise (KeyError "content")).
Proof.
  intros Hopen Ht Hc. unfold write_rule, rule_path, header_chunks, layout.
  cbn [fst]. rewrite Ht, Hc. cbn [default from_option id getitem].
  set (p := resolve (os_path_join d k)).
  rewrite (bind_ok _ _ _ _ _ (open_w_ok _ _ Hopen)). fold p. cbv beta.
  destruct (file_patterns r) as [ps|], (description r) as [ds|];
    repeat (rewrite bind_ret || rewrite bind_f_write);
    unfold bind, raise; cbn [map app];
    rewrite <- ?app_assoc, <- ?append_assoc; cbn [app];
    repeat f_equal.
Qed.

(** A run that fails inside the loop body of one record. *)
Lemma script_raise_in_loop d done k r rest w w0 w1 w' e :
  makedirs d w = (w0, Ok tt) →
  for_items d done w0 = (w1, Ok tt) →
  write_rule d k r w1 = (w', Raise e) →
  script d (done ++ (k, r) :: rest) w = (w', Raise e).
Proof.
  intros E0 E1 Ek. unfold script. rewrite (bind_ok _ _ _ _ _ E0).
  assert (for_items d (done ++ (k, r) :: rest) w0 = (w', Raise e)) as Hloop.
  { rewrite for_items_app, (bind_ok _ _ _ _ _ E1). cbn [for_items].
    by rewrite (bind_raise _ _ _ _ _ Ek). }
  by rewrite (bind_raise _ _ _ _ _ Hloop).
Qed.

Lemma opened_open_writes p chunks :
  omap (λ e, match e with Open p => Some p | _ => None end)
       (Open p :: map (Write p) chunks) = [p].
Proof. cbn [omap]. f_equal. induction chunks as [|c cs IH]; [done|]. by cbn. Qed.

Lemma stdout_open_writes p chunks :
  omap (λ e, match e with Print s => Some s | _ => None end)
       (Open p :: map (Write p) chunks) = [].
Proof. cbn [omap]. induction chunks as [|c cs IH]; [done|]. by cbn. Qed.

End missing_keys.



(** X2.  When a record has a rule type but no ["content"], the header has
    been written by the time the key is read: the run raises
    [KeyError("content")] and leaves in that file the header alone (rule
    type line, pattern line and description line as far as present, each
    with its blank line); no later file is opened and nothing is printed. *)
Theorem X2_missing_content d done k r rest w w0 w1 t :
  makedirs d w = (w0, Ok tt) →
  for_items d done w0 = (w1, Ok tt) →
  can_open w1 (os_path_join d k) = true →
  rule_type r = Some t → content r = None →
  ∃ w', script d (done ++ (k, r) :: rest) w = (w', Raise (KeyError "content")) ∧
        files w' !! rule_path d (k, r)
          = Some (layout t (file_patterns r) (description r) "") ∧
        opened w' = opened w ++ map (rule_path d) done ++ [rule_path d (k, r)] ∧
        stdout w' = stdout w.
Proof.
  intros E0 E1 Hopen Ht Hc. eexists. split.
  { eapply script_raise_in_loop; [done | done |].
    by apply (write_rule_no_content _ _ _ _ t). }
  apply for_items_ok in E1 as ->. cbn [files]. split_and!.
  - by rewrite lookup_insert_eq.
  - unfold opened at 1. cbn [trace]. rewrite omap_app, opened_open_writes.
    fold (opened (emitted_world d done w0)).
    by rewrite opened_emitted_world, (makedirs_opened _ _ _ _ E0), app_assoc.
  - unfold stdout at 1. cbn [trace]. rewrite omap_app, stdout_open_writes.
    fold (stdout (emitted_world d done w0)).
    by rewrite stdout_emitted_world, (makedirs_stdout _ _ _ _ E0), app_nil_r.
Qed.

Lemma X2_missing_content_witness :
  makedirs "targetDir" used_world = ((makedirs "targetDir" used_world).1, Ok tt) ∧
  for_items "targetDir" [] (makedirs "targetDir" used_world).1
    = ((makedirs "targetDir" used_world).1, Ok tt) ∧
  can_open (makedirs "targetDir" used_world).1 (os_path_join "targetDir" "y.mdc")
    = true ∧
  rule_type rule_without_content = Some "Manual" ∧
  content rule_without_content = None ∧
  ∃ w', script "targetDir" [("y.mdc", rule_without_content); ("z.mdc", example_rule)]
          used_world = (w', Raise (KeyError "content")) ∧
        files w' !! ["targetDir"; "y.mdc"] = Some "Rule Type: Manual

File Pattern Matches: *.md

Description: why

" ∧
        opened w' = [["targetDir"; "y.mdc"]].
Proof.
  assert (makedirs "targetDir" used_world
          = ((makedirs "targetDir" used_world).1, Ok tt)) as Hmk by run_script.
  assert (can_open (makedirs "targetDir" used_world).1
                   (os_path_join "targetDir" "y.mdc") = true) as Hopen
    by (vm_compute; reflexivity).
  split_and!; [exact Hmk | reflexivity | exact Hopen | reflexivity | reflexivity |].
  destruct (X2_missing_content "targetDir" [] "y.mdc" rule_without_content
              [("z.mdc", example_rule)] _ _ _ "Manual" Hmk eq_refl Hopen eq_refl eq_refl)
    as (w' & Hrun & Hfile & Hopened & _).
  exists w'. split_and!; [exact Hrun | exact Hfile | exact Hopened].
Defined.

(** ** What a failed run leaves behind *)

(** X3.  Nothing is rolled back.  When the file of a record cannot be
    opened, the files of the records before it hold their full text after
    the failed run, and the file that could not be opened is as it was
    before the run (provided no two of these records name the same file). *)
Theorem X3_no_rollback d done k r rest w w0 w1 :
  makedirs d w = (w0, Ok tt) →
  for_items d done w0 = (w1, Ok tt) →
  can_open w1 (os_path_join d k) = false →
  NoDup (map (rule_path d) (done ++ [(k, r)])) →
  ∃ w' e, script d (done ++ (k, r) :: rest) w = (w', Raise e) ∧
    (∀ k' r', (k', r') ∈ done →
       ∃ t c, rule_type r' = Some t ∧ content r' = Some c ∧
         files w' !! rule_path d (k', r')
           = Some (layout t (file_patterns r') (description r') c)) ∧
    files w' !! rule_path d (k, r) = files w !! rule_path d (k, r).
Proof.
  intros E0 E1 Hno Hnd.
  rewrite fmap_app, NoDup_app in Hnd. destruct Hnd as (Hnd & Hfresh & _).
  destruct (write_rule_open_fail d k r w1 Hno) as [kind Hk].
  exists w1, (OSError kind (rule_path d (k, r))). split.
  { by eapply script_raise_in_loop. }
  pose proof (for_items_ok_inv _ _ _ _ E1) as Hall.
  apply for_items_ok in E1 as ->. unfold emitted_world. cbn [files]. split.
  - intros k' r' Hin. rewrite Forall_forall in Hall.
    destruct (Hall _ Hin) as (_ & [t Ht] & [c Hc]). cbn [snd] in Ht, Hc.
    exists t, c. split_and!; [done | done |].
    rewrite (written_in _ _ _ _ _ Hnd Hin). unfold rule_text. by rewrite Ht, Hc.
  - rewrite written_notin, (makedirs_files _ _ _ _ E0); [done|].
    intros Hin. apply (Hfresh _ Hin). cbn [map]. apply elem_of_cons. by left.
Qed.

Lemma X3_no_rollback_witness :
  makedirs "targetDir" locked_world
    = ((makedirs "targetDir" locked_world).1, Ok tt) ∧
  for_items "targetDir" example_table (makedirs "targetDir" locked_world).1
    = ((for_items "targetDir" example_table (makedirs "targetDir" locked_world).1).1,
       Ok tt) ∧
  can_open (for_items "targetDir" example_table (makedirs "targetDir" locked_world).1).1
           (os_path_join "targetDir" "y.mdc") = false ∧
  NoDup (map (rule_path "targetDir")
             (example_table ++ [("y.mdc", example_rule_patterns)])) ∧
  ∃ w' e, script "targetDir" three_records locked_world = (w', Raise e) ∧
    files w' !! ["targetDir"; "x.mdc"] = Some "Rule Type: Always

hello
" ∧
    files w' !! ["targetDir"; "y.mdc"] = None.
Proof.
  assert (makedirs "targetDir" locked_world
          = ((makedirs "targetDir" locked_world).1, Ok tt)) as Hmk by run_script.
  assert (for_items "targetDir" example_table (makedirs "targetDir" locked_world).1
          = ((for_items "targetDir" example_table
                (makedirs "targetDir" locked_world).1).1, Ok tt)) as Hdone
    by run_script.
  assert (can_open (for_items "targetDir" example_table
                      (makedirs "targetDir" locked_world).1).1
                   (os_path_join "targetDir" "y.mdc") = false) as Hno
    by (vm_compute; reflexivity).
  assert (NoDup (map (rule_path "targetDir")
                     (example_table ++ [("y.mdc", example_rule_patterns)]))) as Hnd
    by (apply (bool_decide_unpack _); vm_compute; exact I).
  split_and!; [exact Hmk | exact Hdone | exact Hno | exact Hnd |].
  destruct (X3_no_rollback "targetDir" example_table "y.mdc" example_rule_patterns
              [("z.mdc", example_rule)] _ _ _ Hmk Hdone Hno Hnd)
    as (w' & e & Hrun & Hbefore & Hsame).
  exists w', e. split_and!; [exact Hrun | | exact Hsame].
  destruct (Hbefore "x.mdc" example_rule) as (t & c & Ht & Hc & Hf).
  { apply elem_of_cons. by left. }
  injection Ht as <-. injection Hc as <-. exact Hf.
Defined.

(** X6.  The confirmation is never printed by a run that fails: whatever
    the exception and wherever it is raised, standard output is as it was
    before the run. *)
Theorem X6_silent_on_failure d table w w' e :
  script d table w = (w', Raise e) → stdout w' = stdout w.
Proof.
  unfold script. intros [E0 | (w0 & [] & E0 & E)]%bind_inv_raise.
  - by eapply makedirs_stdout.
  - apply bind_inv_raise in E as [E1 | (w1 & [] & _ & E)]; [|done].
    destruct (touches_only_for_items d table _ _ _ E1) as (_ & _ & _ & evs & Ht & Hev).
    unfold stdout at 1. rewrite Ht, omap_app, (stdout_file_events _ _ Hev), app_nil_r.
    fold (stdout w0). by eapply makedirs_stdout.
Qed.

Lemma X6_silent_on_failure_witness :
  script "targetDir" three_records locked_world
    = ((script "targetDir" three_records locked_world).1,
       Raise (OSError PermissionError ["targetDir"; "y.mdc"])) ∧
  stdout (script "targetDir" three_records locked_world).1 = [].
Proof.
  assert (script "targetDir" three_records locked_world
          = ((script "targetDir" three_records locked_world).1,
             Raise (OSError PermissionError ["targetDir"; "y.mdc"]))) as Hrun
    by run_script.
  split; [exact Hrun|]. exact (X6_silent_on_failure _ _ _ _ _ Hrun).
Defined.

(** ** Keys that share a file, keys that leave the directory *)

Section aliasing.

Lemma written_app d xs ys m :
  written d (xs ++ ys) m = written d ys (written d xs m).
Proof. unfold written. apply foldl_app. Qed.

Lemma written_last d xs item ys m :
  rule_path d item ∉ map (rule_path d) ys →
  written d (xs ++ item :: ys) m !! rule_path d item = Some (rule_text item.2).
Proof.
  intros Hlast. rewrite written_app, written_cons, written_notin by done.
  apply lookup_insert_eq.
Qed.

End aliasing.

(** X4.  When several records name the same file, the last of them in the
    order of the table decides what the file holds after a successful
    run. *)
Theorem X4_last_record_wins d before k r after w w' :
  script d (before ++ (k, r) :: after) w = (w', Ok tt) →
  rule_path d (k, r) ∉ map (rule_path d) after →
  ∃ t c, rule_type r = Some t ∧ content r = Some c ∧
    files w' !! rule_path d (k, r)
      = Some (layout t (file_patterns r) (description r) c).
Proof.
  intros E Hlast. pose proof (script_ok_files _ _ _ _ E) as Hfiles.
  apply script_ok_inv in E as (w0 & _ & Hall & _).
  rewrite Forall_forall in Hall.
  destruct (Hall (k, r)) as (_ & [t Ht] & [c Hc]).
  { apply elem_of_app. right. apply elem_of_cons. by left. }
  cbn [snd] in Ht, Hc. exists t, c. split_and!; [done | done |].
  rewrite Hfiles, (written_last d before (k, r) after _ Hlast).
  unfold rule_text. cbn [snd]. by rewrite Ht, Hc.
Qed.

(** The keys ["x.mdc"] and ["./x.mdc"] name one file: it holds the second
    record. *)
Lemma X4_last_record_wins_witness :
  ∃ w', script "targetDir" aliasing_table empty_world = (w', Ok tt) ∧
  rule_path "targetDir" ("x.mdc", example_rule_patterns)
    = rule_path "targetDir" ("./x.mdc", example_rule) ∧
  (rule_path "targetDir" ("./x.mdc", example_rule) ∉ map (rule_path "targetDir") []) ∧
  files w' !! rule_path "targetDir" ("./x.mdc", example_rule)
    = Some (layout "Always" None None ("hello" +:+ LF)).
Proof.
  assert (makedirs "targetDir" empty_world
          = ((makedirs "targetDir" empty_world).1, Ok tt)) as E0 by run_script.
  assert (Forall (writable "targetDir" (makedirs "targetDir" empty_world).1)
            aliasing_table) as Hall.
  { unfold aliasing_table.
    repeat (apply Forall_cons; split;
            [split_and!; [vm_compute; reflexivity | by eexists | by eexists]|]).
    apply Forall_nil_2. }
  pose proof (script_success _ _ _ _ E0 Hall) as Hrun.
  assert (rule_path "targetDir" ("./x.mdc", example_rule)
          ∉ map (rule_path "targetDir") []) as Hlast by apply not_elem_of_nil.
  eexists. split_and!; [exact Hrun | reflexivity | exact Hlast |].
  destruct (X4_last_record_wins "targetDir" [("x.mdc", example_rule_patterns)]
              "./x.mdc" example_rule [] _ _ Hrun Hlast) as (t & c & Ht & Hc & Hf).
  injection Ht as <-. injection Hc as <-. exact Hf.
Defined.

(** X10.  A key that begins with a separator leaves the target directory:
    [os.path.join] drops the directory, and after a successful run the
    file of that record is at the absolute path the key spells. *)
Theorem X10_absolute_key_escapes d table w w' k r :
  script d table w = (w', Ok tt) →
  (k, r) ∈ table →
  startswith_sep k = true →
  os_path_join d k = k ∧ is_file w' (resolve k) = true.
Proof.
  intros E Hin Habs.
  assert (os_path_join d k = k) as Hjoin by (unfold os_path_join; by rewrite Habs).
  split; [done|].
  unfold is_file. rewrite (script_ok_files _ _ _ _ E). apply bool_decide_eq_true.
  assert (rule_path d (k, r) ∈ map (rule_path d) table) as Hp.
  { apply list_elem_of_fmap. by exists (k, r). }
  destruct (written_is_Some d table (files w) _ Hp) as (item & _ & _ & Hs).
  unfold rule_path in Hs. cbn [fst] in Hs. rewrite Hjoin in Hs. by rewrite Hs.
Qed.

Lemma X10_absolute_key_escapes_witness :
  script "targetDir" [("/x.mdc", example_rule)] empty_world
    = ((script "targetDir" [("/x.mdc", example_rule)] empty_world).1, Ok tt) ∧
  ("/x.mdc", example_rule) ∈ [("/x.mdc", example_rule)] ∧
  startswith_sep "/x.mdc" = true ∧
  is_file (script "targetDir" [("/x.mdc", example_rule)] empty_world).1 ["/"; "x.mdc"]
    = true ∧
  is_file (script "targetDir" [("/x.mdc", example_rule)] empty_world).1
          ["targetDir"; "x.mdc"] = false.
Proof.
  assert (script "targetDir" [("/x.mdc", example_rule)] empty_world
          = ((script "targetDir" [("/x.mdc", example_rule)] empty_world).1, Ok tt))
    as Hrun by run_script.
  assert (("/x.mdc", example_rule) ∈ [("/x.mdc", example_rule)]) as Hin
    by (apply elem_of_cons; left; reflexivity).
  split_and!; [exact Hrun | exact Hin | reflexivity | |].
  - exact (proj2 (X10_absolute_key_escapes _ _ _ _ _ _ Hrun Hin eq_refl)).
  - vm_compute. reflexivity.
Defined.

(** ** The directory after [os.makedirs] *)

Section after_makedirs.

Lemma is_dir_after_makedirs d w w0 :
  makedirs d w = (w0, Ok tt) → is_dir w0 (resolve d) = true.
Proof.
  intros (_ & _ & Hmade)%makedirs_ok_inv.
  destruct (rev (resolve d)) as [|c rh] eqn:Hr.
  - apply (f_equal (@rev string)) in Hr. rewrite rev_involutive in Hr. by rewrite Hr.
  - rewrite <- (rev_involutive (resolve d)), Hr. by destruct Hmade.
Qed.

End after_makedirs.

(** ** What a run never does *)

Section never_deletes.

Lemma keeps_files_ret {A} (a : A) : keeps_files (ret a).
Proof. by intros w w' r [= <- <-]. Qed.

Lemma keeps_files_raise {A} e : keeps_files (@raise A e).
Proof. by intros w w' r [= <- <-]. Qed.

Lemma keeps_files_bind {A B} (m : M A) (k : A → M B) :
  keeps_files m → (∀ a, keeps_files (k a)) → keeps_files (bind m k).
Proof.
  intros Hm Hk w w' r. unfold bind. destruct (m w) as [w1 [a|e]] eqn:E.
  - intros Hka q Hq. eapply Hk; [exact Hka|]. by eapply Hm.
  - intros [= <- <-]. by eapply Hm.
Qed.

Lemma keeps_files_open_w name : keeps_files (open_w name).
Proof.
  intros w w' r. destruct (can_open w name) eqn:E.
  - rewrite (open_w_ok _ _ E). intros [= <- <-] q Hq. cbn [files].
    destruct (decide (resolve name = q)) as [->|Hne].
    + rewrite lookup_insert_eq. by eexists.
    + by rewrite lookup_insert_ne.
  - destruct (open_w_fail _ _ E) as [kind ->]. by intros [= <- <-].
Qed.

Lemma keeps_files_f_write f data : keeps_files (f_write f data).
Proof.
  intros w w' r [= <- <-] q Hq. cbn [files].
  destruct (decide (f = q)) as [->|Hne].
  - rewrite lookup_insert_eq. by eexists.
  - by rewrite lookup_insert_ne.
Qed.

Lemma keeps_files_getitem key v : keeps_files (getitem key v).
Proof. destruct v; [apply keeps_files_ret | apply keeps_files_raise]. Qed.

Lemma keeps_files_write_rule d k r : keeps_files (write_rule d k r).
Proof.
  unfold write_rule.
  apply keeps_files_bind; [apply keeps_files_open_w | intros f].
  apply keeps_files_bind; [apply keeps_files_getitem | intros t].
  apply keeps_files_bind; [apply keeps_files_f_write | intros _].
  apply keeps_files_bind; [| intros _].
  { destruct (file_patterns r); [apply keeps_files_f_write | apply keeps_files_ret]. }
  apply keeps_files_bind; [| intros _].
  { destruct (description r); [apply keeps_files_f_write | apply keeps_files_ret]. }
  apply keeps_files_bind; [apply keeps_files_getitem | intros c].
  apply keeps_files_f_write.
Qed.

Lemma keeps_files_for_items d items : keeps_files (for_items d items).
Proof.
  induction items as [|[k r] items IH]; cbn [for_items].
  - apply keeps_files_ret.
  - apply keeps_files_bind; [apply keeps_files_write_rule | by intros _].
Qed.

Lemma keeps_files_makedirs d : keeps_files (makedirs d).
Proof. intros w w' r E q. by rewrite (makedirs_files _ _ _ _ E). Qed.

Lemma keeps_files_print text : keeps_files (print text).
Proof. by intros w w' r [= <- <-]. Qed.

Lemma keeps_files_script d table : keeps_files (script d table).
Proof.
  unfold script.
  apply keeps_files_bind; [apply keeps_files_makedirs | intros _].
  apply keeps_files_bind; [apply keeps_files_for_items | intros _].
  apply keeps_files_print.
Qed.

(** The directories after a run are those [os.makedirs] left. *)
Lemma script_dirs d t w w' r :
  script d t w = (w', r) → ∃ w0 r0, makedirs d w = (w0, r0) ∧ dirs w' = dirs w0.
Proof.
  unfold script, bind. destruct (makedirs d w) as [w0 [[]|e]] eqn:E0; intros E.
  - exists w0, (Ok tt). split; [done|].
    destruct (for_items d t w0) as [w1 [[]|e]] eqn:E1; injection E as <- <-;
      by destruct (touches_only_for_items d t _ _ _ E1) as (? & _).
  - injection E as <- <-. by eexists _, _.
Qed.

End never_deletes.

(** X7.  A run deletes nothing, whether it succeeds or fails: every path
    that was a regular file before the run is one after it (a rule file
    that is in the table no longer is not cleaned up), and every directory
    is still a directory. *)
Theorem X7_nothing_deleted d table w w' r :
  script d table w = (w', r) →
  (∀ q, is_file w q = true → is_file w' q = true) ∧
  (∀ q, is_dir w q = true → is_dir w' q = true).
Proof.
  intros E. split.
  - intros q. unfold is_file. rewrite !bool_decide_eq_true.
    by apply (keeps_files_script d table _ _ _ E).
  - intros q Hq. destruct (script_dirs _ _ _ _ _ E) as (w0 & r0 & E0 & Hd).
    rewrite (is_dir_ext w' w0 q Hd).
    destruct (makes_only_makedirs d _ _ _ E0) as (_ & _ & Hup & _). by apply Hup.
Qed.

Lemma X7_nothing_deleted_witness :
  script "targetDir" three_records used_world
    = ((script "targetDir" three_records used_world).1,
       (script "targetDir" three_records used_world).2) ∧
  is_file used_world [".cursor"; "rules"; "always.mdc"] = true ∧
  is_file (script "targetDir" three_records used_world).1
          [".cursor"; "rules"; "always.mdc"] = true.
Proof.
  assert (script "targetDir" three_records used_world
          = ((script "targetDir" three_records used_world).1,
             (script "targetDir" three_records used_world).2)) as Hrun
    by (by destruct (script "targetDir" three_records used_world)).
  assert (is_file used_world [".cursor"; "rules"; "always.mdc"] = true) as Hfile
    by (vm_compute; reflexivity).
  split_and!; [exact Hrun | exact Hfile |].
  exact (proj1 (X7_nothing_deleted _ _ _ _ _ Hrun) _ Hfile).
Defined.

(** ** A regular file where the directory should be *)

Section file_in_the_way.

Lemma makedirs_rev_spares rp w w' r q :
  makedirs_rev rp w = (w', r) → is_file w q = true → is_dir w' q = is_dir w q.
Proof.
  revert w w' r. induction rp as [|c rh IH]; intros w w' r E Hq.
  { by injection E as <- <-. }
  cbn [makedirs_rev] in E. unfold bind in E.
  (* the world after the parent was seen to *)
  assert (∃ w1 r1,
            (if negb (bool_decide (rh = [])) && negb (exists_path w (rev rh))
             then match makedirs_rev rh w with
                  | (w', Raise (OSError FileExistsError _)) => (w', Ok tt)
                  | out => out
                  end
             else (w, Ok tt)) = (w1, r1)
            ∧ is_dir w1 q = is_dir w q ∧ files w1 = files w) as (w1 & r1 & E1 & Hd1 & Hf1).
  { destruct (negb (bool_decide (rh = [])) && negb (exists_path w (rev rh))).
    - destruct (makedirs_rev rh w) as [w1 r0] eqn:E0.
      destruct (makes_only_makedirs_rev rh _ _ _ E0) as (Hf & _).
      pose proof (IH _ _ _ E0 Hq) as Hd.
      destruct r0 as [[]|[?|[] ?|?| |]];
        (eexists _, _; split_and!; [reflexivity | exact Hd | exact Hf]).
    - eexists _, _. split_and!; reflexivity. }
  rewrite E1 in E. destruct r1 as [[]|e1]; [|by injection E as <- <-].
  destruct (mkdir_cases (rev (c :: rh)) w1) as [(Hex & _ & Hm) | (kind & Hm & _ & _)];
    rewrite Hm in E.
  - injection E as <- <-. rewrite (is_dir_add _ w1 (rev (c :: rh)) q) by done.
    rewrite Hd1. rewrite bool_decide_eq_false_2; [done|].
    intros ->. unfold exists_path in Hex. apply orb_false_iff in Hex as [_ Hex].
    by rewrite (is_file_ext w1 w _ Hf1), Hq in Hex.
  - by destruct (is_dir w1 (rev (c :: rh))); injection E as <- <-.
Qed.

Lemma makedirs_spares d w w' r q :
  makedirs d w = (w', r) → is_file w q = true → is_dir w' q = is_dir w q.
Proof.
  unfold makedirs. destruct (String.eqb d "").
  - by intros [= <- <-].
  - apply makedirs_rev_spares.
Qed.

End file_in_the_way.

(** X8.  [exist_ok=True] forgives a directory, not a file: when a regular
    file has the name of the target directory, the run fails in
    [os.makedirs], before any file is opened; no file is changed and nothing
    is printed. *)
Theorem X8_file_in_place_of_directory d table w :
  is_file w (resolve d) = true →
  is_dir w (resolve d) = false →
  ∃ w' e, script d table w = (w', Raise e) ∧
          files w' = files w ∧ opened w' = opened w ∧ stdout w' = stdout w.
Proof.
  intros Hfile Hnodir. destruct (makedirs d w) as [w0 [[]|e]] eqn:E0.
  - pose proof (is_dir_after_makedirs _ _ _ E0) as Hd.
    rewrite (makedirs_spares _ _ _ _ _ E0 Hfile) in Hd. congruence.
  - exists w0, e. unfold script. rewrite (bind_raise _ _ _ _ _ E0).
    split_and!; [done | by eapply makedirs_files | by eapply makedirs_opened
                | by eapply makedirs_stdout].
Qed.

Lemma X8_file_in_place_of_directory_witness :
  is_file blocked_world (resolve "targetDir") = true ∧
  is_dir blocked_world (resolve "targetDir") = false ∧
  script "targetDir" example_table blocked_world
    = (blocked_world, Raise (OSError FileExistsError ["targetDir"])).
Proof.
  assert (is_file blocked_world (resolve "targetDir") = true) as Hfile
    by (vm_compute; reflexivity).
  assert (is_dir blocked_world (resolve "targetDir") = false) as Hnodir
    by (vm_compute; reflexivity).
  split_and!; [exact Hfile | exact Hnodir |].
  destruct (X8_file_in_place_of_directory "targetDir" example_table blocked_world
              Hfile Hnodir) as (w' & e & Hrun & _).
  run_script.
Defined.

(** ** Presence, not emptiness *)

(** X9.  The pattern line is written when the record has the key
    ["file_patterns"], also when the list is empty: the file then holds the
    line [File Pattern Matches: ] with nothing after the colon and the
    space. *)
Theorem X9_empty_pattern_list d table w w' k r :
  script d table w = (w', Ok tt) →
  NoDup (map (rule_path d) table) →
  (k, r) ∈ table →
  file_patterns r = Some [] →
  ∃ t c, rule_type r = Some t ∧ content r = Some c ∧
    files w' !! rule_path d (k, r) =
      Some ("Rule Type: " +:+ t +:+ LF +:+ LF +:+
            "File Pattern Matches: " +:+ LF +:+ LF +:+
            match description r with
            | Some ds => "Description: " +:+ ds +:+ LF +:+ LF
            | None => ""
            end +:+ c).
Proof.
  intros E Hnd Hin Hps. rewrite (script_ok_files _ _ _ _ E).
  apply script_ok_inv in E as (w0 & _ & Hall & _).
  rewrite Forall_forall in Hall.
  destruct (Hall _ Hin) as (_ & [t Ht] & [c Hc]). cbn [snd] in Ht, Hc.
  exists t, c. split_and!; [done | done |].
  rewrite (written_in _ _ _ _ _ Hnd Hin). unfold rule_text, layout.
  by rewrite Ht, Hc, Hps.
Qed.

Lemma X9_empty_pattern_list_witness :
  script "targetDir" [("x.mdc", rule_empty_patterns)] empty_world
    = ((script "targetDir" [("x.mdc", rule_empty_patterns)] empty_world).1, Ok tt) ∧
  NoDup (map (rule_path "targetDir") [("x.mdc", rule_empty_patterns)]) ∧
  ("x.mdc", rule_empty_patterns) ∈ [("x.mdc", rule_empty_patterns)] ∧
  file_patterns rule_empty_patterns = Some [] ∧
  files (script "targetDir" [("x.mdc", rule_empty_patterns)] empty_world).1
    !! ["targetDir"; "x.mdc"] = Some "Rule Type: Always

File Pattern Matches: 

hello
".
Proof.
  assert (script "targetDir" [("x.mdc", rule_empty_patterns)] empty_world
          = ((script "targetDir" [("x.mdc", rule_empty_patterns)] empty_world).1,
             Ok tt)) as Hrun by run_script.
  assert (NoDup (map (rule_path "targetDir") [("x.mdc", rule_empty_patterns)]))
    as Hnd by (apply (bool_decide_unpack _); vm_compute; exact I).
  assert (("x.mdc", rule_empty_patterns) ∈ [("x.mdc", rule_empty_patterns)]) as Hin
    by (apply elem_of_cons; left; reflexivity).
  split_and!; [exact Hrun | exact Hnd | exact Hin | reflexivity |].
  destruct (X9_empty_pattern_list _ _ _ _ _ _ Hrun Hnd Hin eq_refl)
    as (t & c & Ht & Hc & Hf).
  injection Ht as <-. injection Hc as <-. exact Hf.
Defined.

(** ** A trailing separator on the directory *)

Section trailing_separator.

Lemma resolve_trailing_sep d : d ≠ "" → resolve (d +:+ "/") = resolve d.
Proof.
  intros Hd. unfold resolve.
  rewrite split_sep_sep_end, List.filter_app, (startswith_sep_app _ _ Hd).
  cbn [List.filter]. change (real_component "") with false. cbn iota.
  by rewrite app_nil_r.
Qed.

Lemma open_w_ext n1 n2 w :
  resolve n1 = resolve n2 → endswith_sep n1 = endswith_sep n2 →
  open_w n1 w = open_w n2 w.
Proof. unfold open_w. by intros -> ->. Qed.

Lemma write_rule_trailing_sep d k r w :
  d ≠ "" → plain_name k = true →
  write_rule (d +:+ "/") k r w = write_rule d k r w.
Proof.
  intros Hd Hk. unfold write_rule, bind.
  rewrite (open_w_ext (os_path_join (d +:+ "/") k) (os_path_join d k)); [done | |].
  - by rewrite !resolve_join_plain, resolve_trailing_sep.
  - by rewrite !endswith_join_plain.
Qed.

Lemma for_items_trailing_sep d items w :
  d ≠ "" → Forall (λ item, plain_name item.1 = true) items →
  for_items (d +:+ "/") items w = for_items d items w.
Proof.
  intros Hd Hall. revert w. induction Hall as [|[k r] items Hk _ IH]; intros w; [done|].
  cbn [for_items]. cbn [fst] in Hk.
  pose proof (write_rule_trailing_sep d k r w Hd Hk) as Hbody.
  destruct (write_rule d k r w) as [w1 [[]|e]] eqn:E.
  - rewrite (bind_ok _ _ _ _ _ Hbody), (bind_ok _ _ _ _ _ E). apply IH.
  - by rewrite (bind_raise _ _ _ _ _ Hbody), (bind_raise _ _ _ _ _ E).
Qed.

Lemma makedirs_trailing_sep d w : d ≠ "" → makedirs (d +:+ "/") w = makedirs d w.
Proof.
  intros Hd. unfold makedirs. rewrite (resolve_trailing_sep _ Hd).
  destruct (String.eqb_spec d "") as [?|_]; [done|].
  destruct (String.eqb_spec (d +:+ "/") "") as [Heq|_]; [|done].
  by destruct d.
Qed.

End trailing_separator.

(** X11.  A separator at the end of the directory name makes no difference
    to what is written: with keys that are file names proper, the run with
    [rules_dir + "/"] ends as the run with [rules_dir] does and leaves the
    same directories and files, opened in the same order. *)
Theorem X11_trailing_separator d table w :
  d ≠ "" →
  Forall (λ item, plain_name item.1 = true) table →
  (script (d +:+ "/") table w).2 = (script d table w).2 ∧
  dirs (script (d +:+ "/") table w).1 = dirs (script d table w).1 ∧
  files (script (d +:+ "/") table w).1 = files (script d table w).1 ∧
  opened (script (d +:+ "/") table w).1 = opened (script d table w).1.
Proof.
  intros Hd Hall. unfold script, bind.
  rewrite (makedirs_trailing_sep _ _ Hd).
  destruct (makedirs d w) as [w0 [[]|e]]; [|done].
  rewrite (for_items_trailing_sep _ _ _ Hd Hall).
  destruct (for_items d table w0) as [w1 [[]|e]]; [|done].
  unfold print, emit. cbn [fst snd dirs files]. split_and!; [done | done | done |].
  unfold opened. cbn [trace]. by rewrite !opened_app_print.
Qed.

Lemma X11_trailing_separator_witness :
  "targetDir" ≠ "" ∧
  Forall (λ item, plain_name item.1 = true) three_records ∧
  files (script "targetDir/" three_records empty_world).1
    = files (script "targetDir" three_records empty_world).1.
Proof.
  assert ("targetDir" ≠ "") as Hd by discriminate.
  assert (Forall (λ item, plain_name item.1 = true) three_records) as Hall.
  { unfold three_records.
    repeat (apply Forall_cons; split; [vm_compute; reflexivity|]).
    apply Forall_nil_2. }
  split_and!; [exact Hd | exact Hall |].
  exact (proj1 (proj2 (proj2 (X11_trailing_separator "targetDir" three_records
                                empty_world Hd Hall)))).
Defined.
